(** * Row resizing for ProseMirror tables: a shallow embedding of
    [src/rowresizing.ts] and the properties of its interaction state
    machine and of its row-height commit.

    Numbers that the source types as [number] and that hold document
    positions or pixel coordinates are integers here ([Z]).  A slot that may
    hold an unset attribute (the [height] of a cell, and the [startHeight]
    copied from it) is a [jsnum], so that what JavaScript does with [null]
    and [undefined] in arithmetic is written out. *)

From stdpp Require Import base option numbers list strings.

Local Open Scope Z_scope.

(** ** JavaScript numbers that may be unset *)

Inductive jsnum : Type :=
  | JNum (n : Z)
  | JNaN
  | JNull
  | JUndefined.

(** [ToNumber]: [null] counts as 0, [undefined] and [NaN] give [NaN] ([None]). *)
Definition toNumber (v : jsnum) : option Z :=
  match v with
  | JNum n => Some n
  | JNull => Some 0
  | JNaN | JUndefined => None
  end.

(** [v + k] for a number [k]. *)
Definition js_add (v : jsnum) (k : Z) : jsnum :=
  match toNumber v with
  | Some n => JNum (n + k)
  | None => JNaN
  end.

(** [Math.max(k, v)] for a number [k]: [NaN] is absorbing. *)
Definition js_max (k : Z) (v : jsnum) : jsnum :=
  match toNumber v with
  | Some n => JNum (Z.max k n)
  | None => JNaN
  end.

(** ** The document: one table of rows of cells *)

(** [CellAttrs] of util.ts extended with [height] ([CellAttrsWithHeight]). *)
Record CellAttrs : Type := mkAttrs {
  colspan : Z;
  rowspan : Z;
  colwidth : option (list Z);
  height : jsnum
}.

(** A cell node: its attributes and the size of its content.  The node
    itself takes one opening and one closing token. *)
Record Cell : Type := mkCell {
  attrs : CellAttrs;
  contentSize : nat
}.

Definition nodeSize (c : Cell) : Z := Z.of_nat (contentSize c) + 2.

Abbreviation Row := (list Cell).
Abbreviation Table := (list (list Cell)).

Definition sumZ {A} (f : A → Z) (l : list A) : Z := foldr (λ x acc, f x + acc) 0 l.

Definition rowSize (r : Row) : Z := sumZ nodeSize r + 2.

(** The document holds the table node at position [tablePos]; what precedes
    it is not looked at by the row-resizing code. *)
Record Doc : Type := mkDoc {
  tablePos : Z;
  table : Table
}.

(** [{ ...attrs, height }] *)
Definition withHeight (a : CellAttrs) (h : jsnum) : CellAttrs :=
  {| colspan := colspan a; rowspan := rowspan a; colwidth := colwidth a; height := h |}.

(** [Node.nodeAt] restricted to cells.  Positions are relative to the start
    of the enclosing node's content.  [None] stands for every position that
    is not directly in front of a cell. *)
Fixpoint Row_nodeAt (cs : Row) (pos : Z) : option Cell :=
  match cs with
  | [] => None
  | c :: cs' =>
      if pos =? 0 then Some c
      else if pos <? nodeSize c then None
      else Row_nodeAt cs' (pos - nodeSize c)
  end.

(** The row index and the cell found at [pos], relative to the table's
    content start. *)
Fixpoint Table_findCell (t : Table) (pos : Z) : option (Z * Cell) :=
  match t with
  | [] => None
  | r :: t' =>
      if pos <? rowSize r then (λ c, (0, c)) <$> Row_nodeAt r (pos - 1)
      else (λ ic, (fst ic + 1, snd ic)) <$> Table_findCell t' (pos - rowSize r)
  end.

Definition Table_nodeAt (t : Table) (pos : Z) : option Cell :=
  snd <$> Table_findCell t pos.

(** Replace the attributes of the cell in front of [pos], keeping its type
    and content ([setNodeMarkup(pos, null, attrs)]); [None] when there is no
    cell there, where the library raises a [RangeError]. *)
Fixpoint Row_setAttrs (cs : Row) (pos : Z) (a : CellAttrs) : option Row :=
  match cs with
  | [] => None
  | c :: cs' =>
      if pos =? 0 then Some ({| attrs := a; contentSize := contentSize c |} :: cs')
      else if pos <? nodeSize c then None
      else (λ r, c :: r) <$> Row_setAttrs cs' (pos - nodeSize c) a
  end.

Fixpoint Table_setAttrs (t : Table) (pos : Z) (a : CellAttrs) : option Table :=
  match t with
  | [] => None
  | r :: t' =>
      if pos <? rowSize r then (λ r', r' :: t') <$> Row_setAttrs r (pos - 1) a
      else (λ t'', r :: t'') <$> Table_setAttrs t' (pos - rowSize r) a
  end.

Definition tableStart (d : Doc) : Z := tablePos d + 1.

Definition Doc_nodeAt (d : Doc) (pos : Z) : option Cell :=
  Table_nodeAt (table d) (pos - tableStart d).

Definition Doc_setNodeMarkup (d : Doc) (pos : Z) (a : CellAttrs) : option Doc :=
  (λ t', {| tablePos := tablePos d; table := t' |})
    <$> Table_setAttrs (table d) (pos - tableStart d) a.

(** What the source reads from [doc.resolve(cell)] when [cell] points at a
    cell: [$cell.pos], [$cell.node(-1)], [$cell.start(-1)],
    [$cell.index(-1)] and [$cell.nodeAfter]. *)
Record ResolvedPos : Type := mkResolved {
  rp_pos : Z;
  rp_table : Table;
  rp_start : Z;
  rp_index : Z;
  rp_nodeAfter : Cell
}.

(** [doc.resolve(pos)] for a position directly in front of a cell.  The
    source only resolves positions it takes to be cell positions (it reads
    [$cell.nodeAfter!] and hands [$cell.node(-1)] to [TableMap.get]);
    [None] stands for every other position. *)
Definition Doc_resolve (d : Doc) (pos : Z) : option ResolvedPos :=
  (λ ic, {| rp_pos := pos; rp_table := table d; rp_start := tableStart d;
            rp_index := fst ic; rp_nodeAfter := snd ic |})
    <$> Table_findCell (table d) (pos - tableStart d).

(** Modelled from the spec: [pointsAtCell] of util.ts, which is not part of
    the sources at hand.  The remapped handle is valid when it still points
    at a cell of the (new) grid node. *)
Definition pointsAtCell (d : Doc) (pos : Z) : bool :=
  bool_decide (is_Some (Doc_resolve d pos)).

(** Modelled from the spec: [cellAround] of util.ts, which is not part of
    the sources at hand: the position of the cell that encloses [pos]
    (strictly inside the cell node), relative to the table's content. *)
Fixpoint Row_cellAround (cs : Row) (off pos : Z) : option Z :=
  match cs with
  | [] => None
  | c :: cs' =>
      if (off <? pos) && (pos <? off + nodeSize c) then Some off
      else Row_cellAround cs' (off + nodeSize c) pos
  end.

Fixpoint Table_cellAround (t : Table) (off pos : Z) : option Z :=
  match t with
  | [] => None
  | r :: t' =>
      match Row_cellAround r (off + 1) pos with
      | Some p => Some p
      | None => Table_cellAround t' (off + rowSize r) pos
      end
  end.

Definition cellAround (d : Doc) (pos : Z) : option ResolvedPos :=
  p ← Table_cellAround (table d) 0 (pos - tableStart d);
  Doc_resolve d (tableStart d + p).

(** ** The grid map *)

(** Modelled from the spec: [TableMap] of tablemap.ts, which is not part of
    the sources at hand.  The map is a row-major matrix of [width * height]
    slots; each slot holds the position, relative to the table's content
    start, of the cell that occupies it, repeated over the slots a span
    covers.  Building fails ([None], the spec's StructureError) when the
    cells do not tile the matrix: a span that reaches below the last row,
    two cells on one slot, or a slot left without a cell. *)
Module TableMap.

Record t : Type := mk {
  width : Z;
  height : Z;
  map : list Z
}.

(** [map.map[i]], [None] for [undefined]. *)
Definition at_ (m : t) (i : Z) : option Z :=
  if i <? 0 then None else map m !! Z.to_nat i.

(** Columns taken in row [row] by cells of the rows above whose span
    reaches it. *)
Definition hanging (tbl : Table) (row : nat) : Z :=
  sumZ (λ jr : nat * Row,
          sumZ (λ c, if Z.of_nat row <? Z.of_nat (fst jr) + rowspan (attrs c)
                     then colspan (attrs c) else 0) (snd jr))
       (imap pair (take row tbl)).

Definition rowWidth (tbl : Table) (row : nat) (r : Row) : Z :=
  hanging tbl row + sumZ (λ c, colspan (attrs c)) r.

Definition findWidth (tbl : Table) : Z :=
  foldr Z.max 0 (imap (rowWidth tbl) tbl).

(** Number of leading slots already taken. *)
Fixpoint skipFilled (l : list Z) : nat :=
  match l with
  | [] => O
  | x :: l' => if x =? 0 then O else S (skipFilled l')
  end.

Definition nextFree (m : list Z) (mapPos : nat) : nat :=
  (mapPos + skipFilled (drop mapPos m))%nat.

(** The slots a cell placed at [mapPos] covers. *)
Definition slotsOf (w : Z) (mapPos : nat) (c : Cell) : list nat :=
  h ← seq 0 (Z.to_nat (rowspan (attrs c)));
  (λ k, (mapPos + h * Z.to_nat w + k)%nat) <$> seq 0 (Z.to_nat (colspan (attrs c))).

Fixpoint fill (m : list Z) (slots : list nat) (pos : Z) : option (list Z) :=
  match slots with
  | [] => Some m
  | i :: slots' =>
      match m !! i with
      | Some 0 => fill (<[i := pos]> m) slots' pos
      | _ => None
      end
  end.

(** One row: [(map, mapPos, pos)] threaded over its cells. *)
Fixpoint placeCells (w h row : Z) (cs : Row) (st : list Z * nat * Z)
  : option (list Z * nat * Z) :=
  match cs with
  | [] => Some st
  | c :: cs' =>
      let '(m, mapPos, pos) := st in
      let mapPos := nextFree m mapPos in
      if h <? row + rowspan (attrs c) then None
      else
        m' ← fill m (slotsOf w mapPos c) pos;
        placeCells w h row cs' (m', (mapPos + Z.to_nat (colspan (attrs c)))%nat, pos + nodeSize c)
  end.

Fixpoint placeRows (w h row : Z) (rows : Table) (st : list Z * nat * Z)
  : option (list Z) :=
  match rows with
  | [] => Some (fst (fst st))
  | r :: rows' =>
      let '(m, mapPos, pos) := st in
      '(m', mapPos', pos') ← placeCells w h row r (m, mapPos, pos + 1);
      let mapPos' := nextFree m' mapPos' in
      if Z.of_nat mapPos' <? (row + 1) * w then None
      else placeRows w h (row + 1) rows' (m', mapPos', pos' + 1)
  end.

Definition get (tbl : Table) : option t :=
  let w := findWidth tbl in
  let h := Z.of_nat (length tbl) in
  m ← placeRows w h 0 tbl (replicate (Z.to_nat (w * h)) 0, O, 0);
  Some {| width := w; height := h; map := m |}.

(** [map.map.indexOf(pos)] *)
Definition indexOf (m : t) (pos : Z) : Z :=
  match list_find (λ x, x = pos) (map m) with
  | Some (i, _) => Z.of_nat i
  | None => -1
  end.

(** The column the cell at [pos] starts at; [None] when no slot holds
    [pos]. *)
Definition colCount (m : t) (pos : Z) : option Z :=
  match list_find (λ x, x = pos) (map m) with
  | Some (i, _) => Some (Z.rem (Z.of_nat i) (width m))
  | None => None
  end.

End TableMap.

(** ** Plugin state, actions and transactions *)

(** [DraggingRow] of the source.  [startHeight] is copied from a cell's
    [height] attribute, which may be unset. *)
Record DraggingRow : Type := mkDragging {
  startY : Z;
  startHeight : jsnum
}.

(** What the [draggingRow] field holds at run time: [false], [null] (after
    the [setDraggingRow: null] of [finish]) or a session. *)
Inductive DragSlot : Type :=
  | DragFalse
  | DragNull
  | Drag (d : DraggingRow).

(** JavaScript truthiness of a [draggingRow] value. *)
Definition truthy (s : DragSlot) : bool :=
  match s with
  | Drag _ => true
  | DragFalse | DragNull => false
  end.

(** The meta value stored under [rowResizingPluginKey].  A field is [None]
    when it is absent from the action object; [setHandle != null] and
    [setDraggingRow !== undefined] are [Some]. *)
Record Action : Type := mkAction {
  setHandle : option Z;
  setDraggingRow : option DragSlot
}.

(** One step of a transaction: the attribute replacement that
    [setNodeMarkup] records, or any other step. *)
Inductive Step : Type :=
  | ReplaceAroundStep (pos : Z) (a : CellAttrs)
  | OtherStep.

(** A transaction as the plugin sees it: the document it leads to, its
    steps, its position mapping [mapping.map(pos, assoc)] and the plugin's
    meta value ([None] for [undefined]). *)
Record Transaction : Type := mkTr {
  tr_doc : Doc;
  tr_steps : list Step;
  tr_mapping : Z → Z → Z;
  tr_meta : option Action
}.

(** [Transform.docChanged]: the transaction has at least one step. *)
Definition docChanged (tr : Transaction) : bool :=
  match tr_steps tr with
  | [] => false
  | _ :: _ => true
  end.

Module RowResizeState.

Record t : Type := mk {
  activeHandle : Z;
  draggingRow : DragSlot
}.

Definition apply (state : t) (tr : Transaction) : t :=
  let action := tr_meta tr in
  match action ≫= setHandle with
  | Some h => mk h DragFalse
  | None =>
      match action ≫= setDraggingRow with
      | Some d => mk (activeHandle state) d
      | None =>
          if (activeHandle state >? -1) && docChanged tr then
            let handle := tr_mapping tr (activeHandle state) (-1) in
            let handle := if pointsAtCell (tr_doc tr) handle then handle else -1 in
            mk handle (draggingRow state)
          else state
      end
  end.

(** [init] of the plugin's state field. *)
Definition init : t := mk (-1) DragFalse.

End RowResizeState.

Import RowResizeState(activeHandle, draggingRow).

(** ** The editor view *)

(** The editor view as the handlers use it: the document and the plugin
    state of [view.state] ([None] when [rowResizingPluginKey.getState]
    finds no state), the hit test [view.posAtCoords({left, top})] of the
    rendering layer, and the transactions handed to [view.dispatch], the
    latest first. *)
Record EditorView : Type := mkView {
  v_doc : Doc;
  v_plugin : option RowResizeState.t;
  v_posAtCoords : Z → Z → option Z;
  v_dispatched : list Transaction
}.

(** [view.state.tr] *)
Definition state_tr (view : EditorView) : Transaction :=
  {| tr_doc := v_doc view; tr_steps := []; tr_mapping := λ pos _, pos; tr_meta := None |}.

Definition setMeta (tr : Transaction) (a : Action) : Transaction :=
  {| tr_doc := tr_doc tr; tr_steps := tr_steps tr; tr_mapping := tr_mapping tr;
     tr_meta := Some a |}.

(** [tr.setNodeMarkup(pos, null, attrs)]: one more step, whatever the
    attributes were before.  Node sizes do not change, so the mapping stays
    as it is. *)
Definition setNodeMarkup (tr : Transaction) (pos : Z) (a : CellAttrs) : option Transaction :=
  d ← Doc_setNodeMarkup (tr_doc tr) pos a;
  Some {| tr_doc := d; tr_steps := tr_steps tr ++ [ReplaceAroundStep pos a];
          tr_mapping := tr_mapping tr; tr_meta := tr_meta tr |}.

(** [view.dispatch(tr)]: the new editor state has the transaction's
    document and the plugin state given by [apply]. *)
Definition dispatch (view : EditorView) (tr : Transaction) : EditorView :=
  {| v_doc := tr_doc tr;
     v_plugin := (λ prev, RowResizeState.apply prev tr) <$> v_plugin view;
     v_posAtCoords := v_posAtCoords view;
     v_dispatched := tr :: v_dispatched view |}.

(** The part of a [MouseEvent] the handlers read.  [targetRect] is the
    [left] and [right] of the bounding rectangle of the TD or TH found by
    [domCellAround(event.target)], [None] when there is none. *)
Record MouseEvent : Type := mkEvent {
  clientX : Z;
  clientY : Z;
  which : Z;
  targetRect : option (Z * Z)
}.

Inductive Side : Type := SideLeft | SideRight.

(** ** The handlers of rowresizing.ts *)

Definition updateHandle (view : EditorView) (value : Z) : EditorView :=
  dispatch view (setMeta (state_tr view) {| setHandle := Some value; setDraggingRow := None |}).

Definition draggedHeight (draggingRow : DraggingRow) (event : MouseEvent) (cellMinHeight : Z)
  : jsnum :=
  let offset := clientY event - startY draggingRow in
  js_max cellMinHeight (js_add (startHeight draggingRow) offset).

(** [None] where the source throws or computes with [undefined]: the hit
    cell is not in a well-formed table, or the map has no slot before it. *)
Definition edgeCell (view : EditorView) (event : MouseEvent) (side : Side) (handleHeight : Z)
  : option Z :=
  let offset := match side with SideRight => - handleHeight | SideLeft => handleHeight end in
  match v_posAtCoords view (clientX event + offset) (clientY event) with
  | None => Some (-1)
  | Some pos =>
      match cellAround (v_doc view) pos with
      | None => Some (-1)
      | Some cell =>
          match side with
          | SideRight => Some (rp_pos cell)
          | SideLeft =>
              map ← TableMap.get (rp_table cell);
              let start := rp_start cell in
              let index := TableMap.indexOf map (rp_pos cell - start) in
              if Z.rem index (TableMap.width map) =? 0 then Some (-1)
              else (λ p, start + p) <$> TableMap.at_ map (index - 1)
          end
      end
  end.

(** The body of the loop of [updateRowHeight] for column [i]. *)
Definition updateRowHeight_step (table : Table) (map : TableMap.t) (start row : Z)
    (height : jsnum) (tr : Transaction) (i : Z) : option Transaction :=
  let mapIndex := row * TableMap.width map + i in
  pos ← TableMap.at_ map mapIndex;
  cell ← Table_nodeAt table pos;
  setNodeMarkup tr (start + pos) (withHeight (attrs cell) height).

Fixpoint updateRowHeight_loop (table : Table) (map : TableMap.t) (start row : Z)
    (height : jsnum) (tr : Transaction) (cols : list Z) : option Transaction :=
  match cols with
  | [] => Some tr
  | i :: cols' =>
      tr' ← updateRowHeight_step table map start row height tr i;
      updateRowHeight_loop table map start row height tr' cols'
  end.

(** [None] where the source throws: [cell] does not point at a cell, the
    table has no map, the cell is not in the map, or a slot of the row does
    not hold a cell position. *)
Definition updateRowHeight (view : EditorView) (cell : Z) (height : jsnum) : option EditorView :=
  rcell ← Doc_resolve (v_doc view) cell;
  let table := rp_table rcell in
  map ← TableMap.get table;
  let start := rp_start rcell in
  col0 ← TableMap.colCount map (rp_pos rcell - start);
  let col := col0 + colspan (attrs (rp_nodeAfter rcell)) - 1 in
  let tr := state_tr view in
  let row := rp_index rcell in
  tr ← updateRowHeight_loop table map start row height tr
         (seqZ 0 (TableMap.width map));
  Some (if docChanged tr then dispatch view tr else view).

Definition handleMouseMove (view : EditorView) (event : MouseEvent)
    (handleHeight cellMinHeight : Z) (lastRowResizable : bool) : option EditorView :=
  match v_plugin view with
  | None => Some view
  | Some pluginState =>
      if truthy (draggingRow pluginState) then Some view
      else
        cell ← match targetRect event with
               | None => Some (-1)
               | Some (l, r) =>
                   if clientX event - l <=? handleHeight
                   then edgeCell view event SideLeft handleHeight
                   else if r - clientX event <=? handleHeight
                   then edgeCell view event SideRight handleHeight
                   else Some (-1)
               end;
        if cell =? activeHandle pluginState then Some view
        else
          stop ← (if negb lastRowResizable && negb (cell =? -1) then
                    rcell ← Doc_resolve (v_doc view) cell;
                    map ← TableMap.get (rp_table rcell);
                    let tableStart := rp_start rcell in
                    col0 ← TableMap.colCount map (rp_pos rcell - tableStart);
                    let col := col0 + colspan (attrs (rp_nodeAfter rcell)) - 1 in
                    Some (col =? TableMap.width map - 1)
                  else Some false);
          if (stop : bool) then Some view else Some (updateHandle view cell)
  end.

Definition handleMouseLeave (view : EditorView) : EditorView :=
  match v_plugin view with
  | Some pluginState =>
      if (activeHandle pluginState >? -1) && negb (truthy (draggingRow pluginState))
      then updateHandle view (-1)
      else view
  | None => view
  end.

(** The result of [handleMouseDown] and the view after it; [None] where
    [doc.nodeAt(activeHandle)] is not a cell.  Registering the window
    listeners [finish] and [move] and [event.preventDefault()] leave the
    view as it is. *)
Definition handleMouseDown (view : EditorView) (event : MouseEvent) (cellMinHeight : Z)
  : option (bool * EditorView) :=
  match v_plugin view with
  | None => Some (false, view)
  | Some pluginState =>
      if (activeHandle pluginState =? -1) || truthy (draggingRow pluginState)
      then Some (false, view)
      else
        cell ← Doc_nodeAt (v_doc view) (activeHandle pluginState);
        Some (true,
              dispatch view
                (setMeta (state_tr view)
                   {| setHandle := None;
                      setDraggingRow :=
                        Some (Drag {| startY := clientY event;
                                      startHeight := height (attrs cell) |}) |}))
  end.

(** The [mouseup] listener installed by [handleMouseDown]. *)
Definition finish (view : EditorView) (event : MouseEvent) (cellMinHeight : Z)
  : option EditorView :=
  match v_plugin view with
  | Some pluginState =>
      match draggingRow pluginState with
      | Drag d =>
          view' ← updateRowHeight view (activeHandle pluginState)
                    (draggedHeight d event cellMinHeight);
          Some (dispatch view'
                  (setMeta (state_tr view')
                     {| setHandle := None; setDraggingRow := Some DragNull |}))
      | DragFalse | DragNull => Some view
      end
  | None => Some view
  end.

(** ** The screen side: DOM elements, decorations and plugin props *)

(** What [domCellAround] reads of a DOM node: its [nodeName] and its
    [classList] ([None] where a node has none, as a document node). *)
Record DomElement : Type := mkElem {
  nodeName : string;
  classList : option (list string)
}.

(** [target.classList && target.classList.contains(cls)] *)
Definition classContains (e : DomElement) (cls : string) : bool :=
  match classList e with
  | Some l => bool_decide (cls ∈ l)
  | None => false
  end.

(** [domCellAround].  A target is given with its chain of [parentNode]s,
    the nearest first; [[]] is [null].  The answer is the chain from the
    node found on. *)
Fixpoint domCellAround (target : list DomElement) : list DomElement :=
  match target with
  | [] => []
  | e :: parentNode =>
      if bool_decide (nodeName e ≠ "TD") && bool_decide (nodeName e ≠ "TH")
      then (if classContains e "ProseMirror" then [] else domCellAround parentNode)
      else target
  end.

(** [v === undefined] *)
Definition isUndefined (v : jsnum) : bool :=
  match v with
  | JUndefined => true
  | _ => false
  end.

(** A [style] length: the empty string, the text [`${v}px`], or any other
    text. *)
Inductive css : Type :=
  | CssEmpty
  | CssPx (v : jsnum)
  | CssOther (s : string).

(** A TR element: its [style.height] and its child nodes, each known by an
    identity. *)
Record DomRow : Type := mkDomRow {
  row_style_height : css;
  row_childNodes : list nat
}.

(** A TABLE element: [table.rows], [style.height] and [style.minHeight]. *)
Record DomTable : Type := mkDomTable {
  dom_rows : list DomRow;
  dom_style_height : css;
  dom_style_minHeight : css
}.

(** [table.rows[i]] *)
Definition rows_at (table : DomTable) (i : Z) : option DomRow :=
  if i <? 0 then None else dom_rows table !! Z.to_nat i.

(** Assigning the text [`${v}px`] to a [style.height] that holds [old]:
    the setter takes the text only when it is a valid length, a number that
    is not negative; for [NaNpx], [nullpx], [undefinedpx] and a negative
    length it keeps the old value. *)
Definition assignPx (old : css) (v : jsnum) : css :=
  match v with
  | JNum n => if 0 <=? n then CssPx v else old
  | JNaN | JNull | JUndefined => old
  end.

(** [table.rows[i].style.height = `${v}px`]; [None] for the [TypeError] on
    a row that is not there. *)
Definition setRowStyleHeight (table : DomTable) (i : Z) (v : jsnum) : option DomTable :=
  r ← rows_at table i;
  Some {| dom_rows := <[Z.to_nat i := {| row_style_height := assignPx (row_style_height r) v;
                                         row_childNodes := row_childNodes r |}]> (dom_rows table);
          dom_style_height := dom_style_height table;
          dom_style_minHeight := dom_style_minHeight table |}.

(** The [for] loop of [updateRowsOnResize], one turn per cell of the first
    row of the grid node.  The source never advances [rowIndex]. *)
Fixpoint updateRowsOnResize_loop (cells : Row) (rowIndex : Z) (overrideRow : option Z)
    (overrideValue : jsnum) (table : DomTable) : option DomTable :=
  match cells with
  | [] => Some table
  | _ :: cells' =>
      if bool_decide (overrideRow ≠ None) && bool_decide (overrideRow ≠ Some rowIndex)
      then updateRowsOnResize_loop cells' rowIndex overrideRow overrideValue table
      else if negb (isUndefined overrideValue)
      then table' ← setRowStyleHeight table rowIndex overrideValue;
           updateRowsOnResize_loop cells' rowIndex overrideRow overrideValue table'
      else updateRowsOnResize_loop cells' rowIndex overrideRow overrideValue table
  end.

(** The [while (nextDOM)] loop: [nextDOM] and its following siblings are
    removed from their parent one after the other. *)
Fixpoint removeSiblings (nextDOM : list nat) (children : list nat) : list nat :=
  match nextDOM with
  | [] => children
  | n :: after => removeSiblings after (filter (λ x, x ≠ n) children)
  end.

(** [updateRowsOnResize(node, colgroup, table, cellMinHeight, overrideRow,
    overrideValue)].  [colgroup] and [cellMinHeight] are not read by the
    body.  [overrideRow] is [None] and [overrideValue] is [JUndefined] when
    the argument is left out. *)
Definition updateRowsOnResize (node : Table) (table : DomTable) (cellMinHeight : Z)
    (overrideRow : option Z) (overrideValue : jsnum) : option DomTable :=
  let totalHeight := 0 in
  let at_row := default 0 overrideRow in
  let nextDOM := default [] (row_childNodes <$> rows_at table at_row) in
  match node with
  | [] => Some table
  | rowNode :: _ =>
      table ← updateRowsOnResize_loop rowNode 0 overrideRow overrideValue table;
      let rows :=
        match rows_at table at_row with
        | Some r =>
            <[Z.to_nat at_row := {| row_style_height := row_style_height r;
                                    row_childNodes := removeSiblings nextDOM (row_childNodes r) |}]>
              (dom_rows table)
        | None => dom_rows table
        end in
      Some {| dom_rows := rows;
              dom_style_height := CssPx (JNum totalHeight);
              dom_style_minHeight := CssEmpty |}
  end.

(** [displayRowHeight].  [dom] is the TABLE element found from
    [view.domAtPos($cell.start(-1)).node] upwards, [None] when there is
    none; the result is that element after the call. *)
Definition displayRowHeight (view : EditorView) (dom : option DomTable) (cell : Z)
    (height : jsnum) (cellMinHeight : Z) : option (option DomTable) :=
  rcell ← Doc_resolve (v_doc view) cell;
  let table := rp_table rcell in
  let row := rp_index rcell in
  match dom with
  | None => Some None
  | Some dom => Some <$> updateRowsOnResize table dom cellMinHeight (Some row) height
  end.

(** What a call of the [mousemove] listener leaves behind: the view after
    [finish], or the TABLE element after [displayRowHeight] with the view
    as it was. *)
Inductive MoveResult : Type :=
  | Finished (view : EditorView)
  | Painted (dom : option DomTable).

(** The [mousemove] listener installed by [handleMouseDown]; [dom] is the
    TABLE element that [displayRowHeight] finds.  [None] where [finish] or
    [displayRowHeight] throws. *)
Definition move (view : EditorView) (dom : option DomTable) (event : MouseEvent)
    (cellMinHeight : Z) : option MoveResult :=
  if which event =? 0 then Finished <$> finish view event cellMinHeight
  else
    match v_plugin view with
    | None => Some (Painted dom)
    | Some pluginState =>
        match draggingRow pluginState with
        | Drag d =>
            let dragged := draggedHeight d event cellMinHeight in
            Painted <$> displayRowHeight view dom (activeHandle pluginState) dragged
                          cellMinHeight
        | DragFalse | DragNull => Some (Painted dom)
        end
    end.

(** One turn of the loop of [handleDecorations]: the position of the widget
    of row [row], if it gets one. *)
Definition handleDecorations_row (table : Table) (map : TableMap.t) (start col row : Z)
  : option (option Z) :=
  let index := (row + 1) * TableMap.width map - 1 in
  if ((col =? TableMap.width map)
      || bool_decide (TableMap.at_ map index ≠ TableMap.at_ map (index + 1)))
     && ((row =? 0)
         || bool_decide (TableMap.at_ map index ≠ TableMap.at_ map (index - TableMap.width map)))
  then
    cellPos ← TableMap.at_ map index;
    c ← Table_nodeAt table cellPos;
    Some (Some (start + cellPos + nodeSize c - 1))
  else Some None.

Fixpoint handleDecorations_loop (table : Table) (map : TableMap.t) (start col : Z)
    (rows : list Z) : option (list Z) :=
  match rows with
  | [] => Some []
  | row :: rows' =>
      d ← handleDecorations_row table map start col row;
      ds ← handleDecorations_loop table map start col rows';
      Some (match d with Some pos => pos :: ds | None => ds end)
  end.

(** The size of the content of the table node. *)
Definition tableContentSize (t : Table) : Z := sumZ rowSize t.

(** The positions of the document directly in front of and directly behind
    the table node.  The table is a child of the document, so these
    positions resolve to depth 0, where [$cell.node(-1)] is [undefined]. *)
Definition atTopLevel (d : Doc) (pos : Z) : bool :=
  (pos =? tablePos d) || (pos =? tablePos d + tableContentSize (table d) + 2).

(** [handleDecorations(state, cell)]: the positions of the widgets of the
    decoration set, in the order they are pushed.  [state] is given by the
    view that holds it.  At a position of depth 0 there is no [table] and
    the set is empty; [None] stands for every other position that does not
    point at a cell, and for a table without map or a slot without cell. *)
Definition handleDecorations (state : EditorView) (cell : Z) : option (list Z) :=
  match Doc_resolve (v_doc state) cell with
  | None => if atTopLevel (v_doc state) cell then Some [] else None
  | Some rcell =>
      let table := rp_table rcell in
      map ← TableMap.get table;
      let start := rp_start rcell in
      col0 ← TableMap.colCount map (rp_pos rcell - start);
      let col := col0 + colspan (attrs (rp_nodeAfter rcell)) in
      handleDecorations_loop table map start col (seqZ 0 (TableMap.height map))
  end.

(** [props.attributes] of the plugin. *)
Definition attributes (state : EditorView) : list (string * string) :=
  match v_plugin state with
  | Some pluginState =>
      if activeHandle pluginState >? -1 then [("class", "resize-cursor")] else []
  | None => []
  end.

(** [props.decorations] of the plugin: [None] when the function returns
    nothing. *)
Definition decorations (state : EditorView) : option (option (list Z)) :=
  match v_plugin state with
  | Some pluginState =>
      if activeHandle pluginState >? -1
      then Some (handleDecorations state (activeHandle pluginState))
      else None
  | None => None
  end.

(** ** Notions used to state the properties *)

(** The cell [c] with its height set to [h] and nothing else changed. *)
Definition Cell_withHeight (h : jsnum) (c : Cell) : Cell :=
  {| attrs := withHeight (attrs c) h; contentSize := contentSize c |}.

(** The cell position [pos] occupies a slot of row [row] of the map. *)
Definition inRow (m : TableMap.t) (row pos : Z) : Prop :=
  ∃ i, 0 ≤ i < TableMap.width m ∧ TableMap.at_ m (row * TableMap.width m + i) = Some pos.

(** Table [t'] is table [t] with height [h] on exactly the cells whose
    position satisfies [D]: same cell positions, and every other cell as it
    was. *)
Definition heightsSet (h : jsnum) (D : Z → Prop) (t t' : Table) : Prop :=
  ∀ q,
    match Table_nodeAt t q with
    | Some c =>
        (D q → Table_nodeAt t' q = Some (Cell_withHeight h c))
        ∧ (¬ D q → Table_nodeAt t' q = Some c)
    | None => Table_nodeAt t' q = None
    end.

(** The cell [c'] is the cell [c] with height [h]: the height is [h], and
    the spans, the column widths and the content size are those of [c]. *)
Definition heightSetTo (h : jsnum) (c c' : Cell) : Prop :=
  height (attrs c') = h
  ∧ colspan (attrs c') = colspan (attrs c)
  ∧ rowspan (attrs c') = rowspan (attrs c)
  ∧ colwidth (attrs c') = colwidth (attrs c)
  ∧ contentSize c' = contentSize c.

(** Table [t'] has a cell wherever table [t] has one and nowhere else; the
    cells at the positions in [D] are those of [t] with height [h], and
    every other cell is the cell of [t]. *)
Definition rowHeightSet (h : jsnum) (D : Z → Prop) (t t' : Table) : Prop :=
  ∀ q,
    match Table_nodeAt t q with
    | Some c =>
        (D q → ∃ c', Table_nodeAt t' q = Some c' ∧ heightSetTo h c c')
        ∧ (¬ D q → Table_nodeAt t' q = Some c)
    | None => Table_nodeAt t' q = None
    end.



(** A TD or TH element. *)
Definition isCellElement (e : DomElement) : Prop :=
  nodeName e = "TD" ∨ nodeName e = "TH".

(** Two cells of the same shape: same spans and same content size, so
    that they take the same room in the document and in the grid map. *)
Definition sameShape (c c' : Cell) : Prop :=
  colspan (attrs c) = colspan (attrs c')
  ∧ rowspan (attrs c) = rowspan (attrs c')
  ∧ contentSize c = contentSize c'.

(** Two tables with cells of the same shape at the same places. *)
Definition sameShapes (t t' : Table) : Prop := Forall2 (Forall2 sameShape) t t'.

(** ** Example documents *)

Definition ex_attrs : CellAttrs :=
  {| colspan := 1; rowspan := 1; colwidth := None; height := JUndefined |}.
Definition ex_cell : Cell := {| attrs := ex_attrs; contentSize := 2 |}.
Definition ex_table3 : Table := replicate 3 (replicate 3 ex_cell).

Definition ex_doc3 : Doc := {| tablePos := 0; table := ex_table3 |}.

(** A view on [d] whose hit test finds nothing. *)
Definition ex_view (d : Doc) (s : RowResizeState.t) : EditorView :=
  {| v_doc := d; v_plugin := Some s; v_posAtCoords := λ _ _, None; v_dispatched := [] |}.

Definition ex_event (y : Z) : MouseEvent :=
  {| clientX := 0; clientY := y; which := 1; targetRect := None |}.

Definition ex_session : DraggingRow := {| startY := 100; startHeight := JNum 40 |}.

(** A 2x2 table and the transaction that deletes its second row (positions
    11 to 21 of the document). *)
Definition ex_doc2 : Doc := {| tablePos := 0; table := replicate 2 (replicate 2 ex_cell) |}.

Definition ex_deleteRow : Transaction :=
  {| tr_doc := {| tablePos := 0; table := [replicate 2 ex_cell] |};
     tr_steps := [OtherStep];
     tr_mapping := λ pos _, if pos <=? 11 then pos else if pos <? 21 then 11 else pos - 10;
     tr_meta := None |}.

(** A hover state on the first cell of [ex_doc3], whose height is unset. *)
Definition ex_hover3 : EditorView := ex_view ex_doc3 (RowResizeState.mk 2 DragFalse).

Definition ex_dragging3 : EditorView := ex_view ex_doc3 (RowResizeState.mk 2 (Drag ex_session)).

(** [ex_table3] after its first row got height 80. *)
Definition ex_table3_resized : Table :=
  [replicate 3 (Cell_withHeight (JNum 80) ex_cell); replicate 3 ex_cell; replicate 3 ex_cell].


(** A 2x2 table whose first row is one cell spanning both columns: its map
    is [[1; 1; 7; 11]]. *)
Definition ex_docWide : Doc :=
  {| tablePos := 0;
     table := [[ {| attrs := mkAttrs 2 1 None JUndefined; contentSize := 2 |} ];
               [ ex_cell; ex_cell ]] |}.

Definition ex_hoverWide : EditorView := ex_view ex_docWide (RowResizeState.mk 2 DragFalse).

(** The view of [ex_doc2] laid out with columns 100 pixels wide and rows 50
    pixels high; the hit test answers the position inside the paragraph of
    the cell under the point.  The cells are at positions 2, 6 (row 0) and 12, 16 (row 1). *)
Definition ex_view2 : EditorView :=
  {| v_doc := ex_doc2;
     v_plugin := Some RowResizeState.init;
     v_posAtCoords := λ x y,
        Some (if x <? 100 then (if y <? 50 then 4 else 14)
              else (if y <? 50 then 8 else 18));
     v_dispatched := [] |}.

(** The pointer 2 pixels left of the right edge of the cell in row 1,
    column 0. *)
Definition ex_moveLastRow : MouseEvent :=
  {| clientX := 98; clientY := 75; which := 0; targetRect := Some (0, 100) |}.

(** The pointer 2 pixels left of the right edge of the cell in row 0,
    column 1. *)
Definition ex_moveLastCol : MouseEvent :=
  {| clientX := 198; clientY := 25; which := 0; targetRect := Some (100, 200) |}.

(** The pointer in the middle of the first cell of row 0. *)
Definition ex_moveInside : MouseEvent :=
  {| clientX := 50; clientY := 25; which := 0; targetRect := Some (0, 100) |}.

(** A paragraph in a table cell in the editor root. *)
Definition ex_chain : list DomElement :=
  [ mkElem "P" (Some []); mkElem "TD" (Some []); mkElem "TR" (Some []);
    mkElem "TBODY" (Some []); mkElem "TABLE" (Some []);
    mkElem "DIV" (Some ["ProseMirror"]); mkElem "BODY" (Some []) ].

(** A drag in progress on [ex_doc3] whose handle was lost to an edit. *)
Definition ex_lostHandle : EditorView :=
  ex_view ex_doc3 (RowResizeState.mk (-1) (Drag ex_session)).

(** [ex_doc3] with height 80 on its first row already. *)
Definition ex_hover3_resized : EditorView :=
  ex_view {| tablePos := 0; table := ex_table3_resized |} (RowResizeState.mk 2 DragFalse).


(** [ex_table3] with height [NaN] on the three cells of row 0. *)
Definition ex_table3_row0_NaN : Table :=
  [ replicate 3 (mkCell (mkAttrs 1 1 None JNaN) 2);
    replicate 3 (mkCell (mkAttrs 1 1 None JUndefined) 2);
    replicate 3 (mkCell (mkAttrs 1 1 None JUndefined) 2) ].


(** A DOM whose first row is painted 40px high. *)
Definition ex_dom3_painted : DomTable :=
  {| dom_rows := [ mkDomRow (CssPx (JNum 40)) [0; 1; 2]; mkDomRow CssEmpty [3; 4; 5];
                   mkDomRow CssEmpty [6; 7; 8] ]%nat;
     dom_style_height := CssEmpty;
     dom_style_minHeight := CssEmpty |}.

(** A 2x2 table whose last column is one cell spanning both rows: its map
    is [[1; 5; 11; 5]]. *)
Definition ex_docTallLast : Doc :=
  {| tablePos := 0;
     table := [[ ex_cell; {| attrs := mkAttrs 1 2 None JUndefined; contentSize := 2 |} ];
               [ ex_cell ]] |}.

(** A pointer event with no button held. *)
Definition ex_release : MouseEvent :=
  {| clientX := 0; clientY := 130; which := 0; targetRect := None |}.

(** The DOM of [ex_doc3]: three rows of three cells, nothing painted. *)
Definition ex_dom3 : DomTable :=
  {| dom_rows := [ mkDomRow CssEmpty [0; 1; 2]; mkDomRow CssEmpty [3; 4; 5];
                   mkDomRow CssEmpty [6; 7; 8] ]%nat;
     dom_style_height := CssEmpty;
     dom_style_minHeight := CssEmpty |}.

(** ** Properties of the drag-height formula *)

(** C5: for a session whose start height is a number, the dragged height is
    [max(cellMinHeight, startHeight + (clientY - startY))]; with start
    height 40, start Y 100 and minimum 25 the pointer at Y = 130 gives 70
    and the pointer at Y = 0 gives 25. *)
Theorem draggedHeight_formula :
  (∀ sy sh ev cmh,
     draggedHeight {| startY := sy; startHeight := JNum sh |} ev cmh
     = JNum (Z.max cmh (sh + (clientY ev - sy))))
  ∧ draggedHeight ex_session (ex_event 130) 25 = JNum 70
  ∧ draggedHeight ex_session (ex_event 0) 25 = JNum 25.
Proof. split; [intros; reflexivity | split; reflexivity]. Qed.

(** A session started on a cell without height has no number to add to:
    the dragged height is [NaN] for [undefined], and the offset alone,
    floored, for [null]. *)
Example draggedHeight_unset :
  draggedHeight {| startY := 100; startHeight := JUndefined |} (ex_event 130) 25 = JNaN
  ∧ draggedHeight {| startY := 100; startHeight := JNull |} (ex_event 130) 25 = JNum 30.
Proof. split; reflexivity. Qed.

(** ** Properties of the state machine *)

Section Apply.

Variables (prev : RowResizeState.t) (tr : Transaction).

(** C9: a transaction that carries a set-handle action leads to a state with
    the given handle and [draggingRow = false], whatever the previous state
    was. *)
Theorem apply_setHandle_discards_drag (a : Action) (h : Z) :
  tr_meta tr = Some a →
  setHandle a = Some h →
  RowResizeState.apply prev tr = RowResizeState.mk h DragFalse
  ∧ draggingRow (RowResizeState.apply prev tr) = DragFalse.
Proof.
  intros Hmeta Hset. unfold RowResizeState.apply.
  rewrite Hmeta; simpl. rewrite Hset. done.
Qed.

(** C10: a transaction without plugin action returns the previous state
    itself when there is no active handle or the document did not change. *)
Theorem apply_no_action_id :
  tr_meta tr = None →
  activeHandle prev = -1 ∨ docChanged tr = false →
  RowResizeState.apply prev tr = prev.
Proof.
  intros Hmeta Hcase. unfold RowResizeState.apply.
  rewrite Hmeta; simpl.
  destruct Hcase as [-> | ->]; [done |].
  by rewrite andb_false_r.
Qed.

(** What [apply] does on a document change without plugin action and
    with an active handle: the handle is remapped; when it no longer points
    at a cell it becomes -1, otherwise the remapped handle is kept; in both
    cases the [draggingRow] of the previous state is carried over. *)
Theorem apply_docChanged_remap :
  tr_meta tr = None →
  activeHandle prev > -1 →
  docChanged tr = true →
  let handle := tr_mapping tr (activeHandle prev) (-1) in
  (pointsAtCell (tr_doc tr) handle = false →
     RowResizeState.apply prev tr = RowResizeState.mk (-1) (draggingRow prev))
  ∧ (pointsAtCell (tr_doc tr) handle = true →
     RowResizeState.apply prev tr = RowResizeState.mk handle (draggingRow prev)).
Proof.
  intros Hmeta Hact Hchg handle. unfold RowResizeState.apply.
  rewrite Hmeta, Hchg; simpl.
  assert ((activeHandle prev >? -1) = true) as -> by lia.
  fold handle. split; intros ->; reflexivity.
Qed.

End Apply.

Lemma apply_setHandle_discards_drag_witness :
  RowResizeState.apply (RowResizeState.mk 12 (Drag ex_session))
    (setMeta ex_deleteRow (mkAction (Some 2) None))
  = RowResizeState.mk 2 DragFalse
  ∧ draggingRow (RowResizeState.apply (RowResizeState.mk 12 (Drag ex_session))
                   (setMeta ex_deleteRow (mkAction (Some 2) None))) = DragFalse.
Proof.
  apply (apply_setHandle_discards_drag _ _ (mkAction (Some 2) None) 2); reflexivity.
Defined.

Lemma apply_no_action_id_witness :
  RowResizeState.apply (RowResizeState.mk (-1) DragFalse) ex_deleteRow
  = RowResizeState.mk (-1) DragFalse.
Proof.
  apply apply_no_action_id; [reflexivity | left; reflexivity].
Defined.

Lemma apply_docChanged_remap_witness :
  RowResizeState.apply (RowResizeState.mk 12 (Drag ex_session)) ex_deleteRow
  = RowResizeState.mk (-1) (Drag ex_session).
Proof.
  apply (apply_docChanged_remap (RowResizeState.mk 12 (Drag ex_session)) ex_deleteRow);
    [reflexivity | simpl; lia | reflexivity | vm_compute; reflexivity].
Defined.

(** C3 as stated fails: the handle at the first cell of the second row is
    remapped by the deletion of that row to a position that holds no cell,
    the state gets [activeHandle = -1], and the drag session is still in
    it. *)
Lemma apply_invalid_handle_keeps_drag :
  ¬ (tr_meta ex_deleteRow = None →
     docChanged ex_deleteRow = true →
     pointsAtCell (tr_doc ex_deleteRow) (tr_mapping ex_deleteRow 12 (-1)) = false →
     activeHandle
       (RowResizeState.apply (RowResizeState.mk 12 (Drag ex_session)) ex_deleteRow) = -1
     ∧ truthy (draggingRow
                 (RowResizeState.apply (RowResizeState.mk 12 (Drag ex_session)) ex_deleteRow))
       = false).
Proof.
  intros H.
  destruct H as [_ H]; [reflexivity | reflexivity | vm_compute; reflexivity |].
  vm_compute in H. discriminate.
Qed.

(** ** Properties of the pointer handlers *)

(** C7: a pointer-down without active handle, or while a drag is in
    progress, returns [false] and leaves the view, and so the interaction
    state, as it is. *)
Theorem handleMouseDown_rejected (view : EditorView) (s : RowResizeState.t)
    (event : MouseEvent) (cellMinHeight : Z) :
  v_plugin view = Some s →
  activeHandle s = -1 ∨ truthy (draggingRow s) = true →
  handleMouseDown view event cellMinHeight = Some (false, view).
Proof.
  intros Hs Hcase. unfold handleMouseDown. rewrite Hs.
  destruct Hcase as [-> | ->]; [done |].
  by rewrite orb_true_r.
Qed.

Lemma handleMouseDown_rejected_witness :
  handleMouseDown ex_dragging3 (ex_event 130) 25 = Some (false, ex_dragging3)
  ∧ handleMouseDown (ex_view ex_doc3 RowResizeState.init) (ex_event 130) 25
    = Some (false, ex_view ex_doc3 RowResizeState.init).
Proof.
  split.
  - apply (handleMouseDown_rejected ex_dragging3 (RowResizeState.mk 2 (Drag ex_session)));
      [reflexivity | right; reflexivity].
  - apply (handleMouseDown_rejected _ RowResizeState.init);
      [reflexivity | left; reflexivity].
Defined.

(** C8: mouse-leave leaves a view with a drag in progress as it is; in the
    hover state (a handle and no drag) it leads to the idle state, with the
    document unchanged. *)
Theorem handleMouseLeave_cases (view : EditorView) (s : RowResizeState.t) :
  v_plugin view = Some s →
  (truthy (draggingRow s) = true → handleMouseLeave view = view)
  ∧ (truthy (draggingRow s) = false → activeHandle s > -1 →
     v_plugin (handleMouseLeave view) = Some (RowResizeState.mk (-1) DragFalse)
     ∧ v_doc (handleMouseLeave view) = v_doc view).
Proof.
  intros Hs. unfold handleMouseLeave. rewrite Hs. split.
  - intros ->. by rewrite andb_false_r.
  - intros -> Hact. assert ((activeHandle s >? -1) = true) as -> by lia.
    simpl. by rewrite Hs.
Qed.

Lemma handleMouseLeave_cases_witness :
  handleMouseLeave ex_dragging3 = ex_dragging3
  ∧ v_plugin (handleMouseLeave ex_hover3) = Some (RowResizeState.mk (-1) DragFalse).
Proof.
  split.
  - apply (handleMouseLeave_cases ex_dragging3 (RowResizeState.mk 2 (Drag ex_session)));
      reflexivity.
  - apply (handleMouseLeave_cases ex_hover3 (RowResizeState.mk 2 DragFalse));
      [reflexivity | reflexivity | simpl; lia].
Defined.

(** What [handleMouseDown] captures: a pointer-down in the hover state on a handle
    that points at a cell starts a drag whose [startY] is the pointer's Y
    and whose [startHeight] is the [height] attribute of that cell as the
    document has it, unset included; the handle and the document stay. *)
Theorem handleMouseDown_captures_height (view : EditorView) (s : RowResizeState.t)
    (event : MouseEvent) (cellMinHeight : Z) (cell : Cell) :
  v_plugin view = Some s →
  activeHandle s ≠ -1 →
  truthy (draggingRow s) = false →
  Doc_nodeAt (v_doc view) (activeHandle s) = Some cell →
  ∃ view',
    handleMouseDown view event cellMinHeight = Some (true, view')
    ∧ v_plugin view'
      = Some (RowResizeState.mk (activeHandle s)
                (Drag {| startY := clientY event; startHeight := height (attrs cell) |}))
    ∧ v_doc view' = v_doc view.
Proof.
  intros Hs Hact Hdrag Hcell. unfold handleMouseDown.
  rewrite Hs, Hdrag, Hcell.
  assert ((activeHandle s =? -1) = false) as -> by lia.
  simpl. eexists; split; [reflexivity |]. simpl. by rewrite Hs.
Qed.

Lemma handleMouseDown_captures_height_witness :
  ∃ view',
    handleMouseDown ex_hover3 (ex_event 100) 25 = Some (true, view')
    ∧ v_plugin view'
      = Some (RowResizeState.mk 2 (Drag {| startY := 100; startHeight := JUndefined |}))
    ∧ v_doc view' = ex_doc3.
Proof.
  apply (handleMouseDown_captures_height ex_hover3 (RowResizeState.mk 2 DragFalse)
           (ex_event 100) 25 ex_cell);
    [reflexivity | simpl; lia | reflexivity | reflexivity].
Defined.

(** C4 as stated fails: the first cell of [ex_doc3] has no height, and the
    drag started on it has [startHeight = undefined], not the minimum
    height 25. *)
Lemma handleMouseDown_no_default_height :
  ¬ (∀ view' d,
       handleMouseDown ex_hover3 (ex_event 100) 25 = Some (true, view') →
       draggingRow <$> v_plugin view' = Some (Drag d) →
       startHeight d = JNum 25).
Proof.
  intros H.
  specialize (H _ {| startY := 100; startHeight := JUndefined |} eq_refl eq_refl).
  discriminate.
Qed.

(** ** Replacing the attributes of one cell *)

Lemma Row_setAttrs_spec (a : CellAttrs) (cs : Row) :
  ∀ p c, Row_nodeAt cs p = Some c →
  ∃ cs', Row_setAttrs cs p a = Some cs'
         ∧ rowSize cs' = rowSize cs
         ∧ ∀ q, Row_nodeAt cs' q
                = if bool_decide (q = p) then Some {| attrs := a; contentSize := contentSize c |}
                  else Row_nodeAt cs q.
Proof.
  induction cs as [| c0 cs IH]; intros p c Hp; simpl in *; [done |].
  destruct (Z.eqb_spec p 0) as [-> | Hp0].
  - injection Hp as ->. eexists; split; [done |]. split; [done |].
    intros q; simpl. destruct (Z.eqb_spec q 0) as [-> | Hq].
    + by rewrite bool_decide_eq_true_2.
    + by rewrite bool_decide_eq_false_2.
  - destruct (Z.ltb_spec p (nodeSize c0)) as [Hlt | Hge]; [done |].
    destruct (IH _ _ Hp) as (cs' & -> & Hsz & Hq).
    eexists; split; [done |]. split.
    + unfold rowSize in *; simpl; lia.
    + intros q; simpl. destruct (Z.eqb_spec q 0) as [-> | Hq0].
      * by rewrite bool_decide_eq_false_2.
      * destruct (Z.ltb_spec q (nodeSize c0)) as [Hlt | Hge'].
        -- rewrite bool_decide_eq_false_2; [done | lia].
        -- rewrite Hq. destruct (decide (q = p)) as [-> | Hne].
           ++ by rewrite !bool_decide_eq_true_2.
           ++ rewrite !bool_decide_eq_false_2; [done | done | lia].
Qed.

Lemma Table_setAttrs_spec (a : CellAttrs) (t : Table) :
  ∀ p i c, Table_findCell t p = Some (i, c) →
  ∃ t', Table_setAttrs t p a = Some t'
        ∧ ∀ q, Table_findCell t' q
               = if bool_decide (q = p)
                 then Some (i, {| attrs := a; contentSize := contentSize c |})
                 else Table_findCell t q.
Proof.
  induction t as [| r t IH]; intros p i c Hp; simpl in *; [done |].
  destruct (Z.ltb_spec p (rowSize r)) as [Hlt | Hge].
  - destruct (Row_nodeAt r (p - 1)) as [c' |] eqn:Hr; [| done].
    injection Hp as <- ->.
    destruct (Row_setAttrs_spec a r _ _ Hr) as (r' & -> & Hsz & Hq).
    eexists; split; [done |]. intros q; simpl. rewrite Hsz.
    destruct (Z.ltb_spec q (rowSize r)) as [Hlt' | Hge'].
    + rewrite Hq. destruct (decide (q = p)) as [-> | Hne].
      * by rewrite !bool_decide_eq_true_2.
      * rewrite !bool_decide_eq_false_2; [done | done | lia].
    + rewrite bool_decide_eq_false_2; [done | lia].
  - destruct (Table_findCell t (p - rowSize r)) as [[i' c'] |] eqn:Ht; [| done].
    injection Hp as <- ->.
    destruct (IH _ _ _ Ht) as (t' & -> & Hq).
    eexists; split; [done |]. intros q; simpl.
    destruct (Z.ltb_spec q (rowSize r)) as [Hlt' | Hge'].
    + rewrite bool_decide_eq_false_2; [done | lia].
    + rewrite Hq. destruct (decide (q = p)) as [-> | Hne].
      * by rewrite !bool_decide_eq_true_2.
      * rewrite !bool_decide_eq_false_2; [done | done | lia].
Qed.

Lemma Table_setAttrs_nodeAt (a : CellAttrs) (t : Table) (p : Z) (c : Cell) :
  Table_nodeAt t p = Some c →
  ∃ t', Table_setAttrs t p a = Some t'
        ∧ ∀ q, Table_nodeAt t' q
               = if bool_decide (q = p)
                 then Some {| attrs := a; contentSize := contentSize c |}
                 else Table_nodeAt t q.
Proof.
  unfold Table_nodeAt. intros Hp.
  destruct (Table_findCell t p) as [[i c'] |] eqn:Hf; [| done].
  injection Hp as ->.
  destruct (Table_setAttrs_spec a t _ _ _ Hf) as (t' & -> & Hq).
  eexists; split; [done |]. intros q. rewrite Hq. by case_bool_decide.
Qed.

(** ** The commit of a row height *)

Lemma heightsSet_iff (h : jsnum) (D D' : Z → Prop) (t t' : Table) :
  (∀ q, D q ↔ D' q) → heightsSet h D t t' → heightsSet h D' t t'.
Proof.
  intros Hiff Hset q. specialize (Hset q).
  destruct (Table_nodeAt t q); [| done].
  destruct Hset as [Hin Hout]. split; intros HD.
  - apply Hin. by apply Hiff.
  - apply Hout. intros HD'. apply HD. by apply Hiff.
Qed.

Lemma heightsSet_refl (h : jsnum) (t : Table) : heightsSet h (λ _, False) t t.
Proof. intros q. destruct (Table_nodeAt t q); [split |]; done. Qed.

Section Loop.

Variables (d0 : Doc) (m : TableMap.t) (row : Z) (h : jsnum).

Lemma updateRowHeight_step_spec (tr : Transaction) (D : Z → Prop) (i p : Z) :
  tablePos (tr_doc tr) = tablePos d0 →
  heightsSet h D (table d0) (table (tr_doc tr)) →
  (∀ q, D q ∨ ¬ D q) →
  TableMap.at_ m (row * TableMap.width m + i) = Some p →
  is_Some (Table_nodeAt (table d0) p) →
  ∃ tr', updateRowHeight_step (table d0) m (tableStart d0) row h tr i = Some tr'
         ∧ tablePos (tr_doc tr') = tablePos d0
         ∧ heightsSet h (λ q, D q ∨ q = p) (table d0) (table (tr_doc tr'))
         ∧ tr_steps tr'
           = tr_steps tr ++ [ReplaceAroundStep (tableStart d0 + p)
                               (withHeight (attrs (default (mkCell (mkAttrs 0 0 None JNaN) 0)
                                                     (Table_nodeAt (table d0) p))) h)].
Proof.
  intros Hpos Hset Hdec Hat [c0 Hc0].
  unfold updateRowHeight_step. rewrite Hat; simpl. rewrite Hc0; simpl.
  unfold setNodeMarkup, Doc_setNodeMarkup, tableStart. rewrite Hpos.
  replace (tablePos d0 + 1 + p - (tablePos d0 + 1)) with p by lia.
  assert (∃ c1, Table_nodeAt (table (tr_doc tr)) p = Some c1
                ∧ contentSize c1 = contentSize c0) as (c1 & Hc1 & Hsz).
  { pose proof (Hset p) as Hp. rewrite Hc0 in Hp. destruct Hp as [Hin Hout].
    destruct (Hdec p) as [HD | HD]; eauto. }
  destruct (Table_setAttrs_nodeAt (withHeight (attrs c0) h) _ _ _ Hc1) as (t' & -> & Hq).
  simpl. eexists; split; [done |]. simpl. split; [done |]. split; [| done].
  intros q. rewrite Hq. pose proof (Hset q) as Hsq.
  destruct (decide (q = p)) as [-> | Hne].
  - rewrite bool_decide_eq_true_2 by done. rewrite Hc0. split.
    + intros _. unfold Cell_withHeight. by rewrite Hsz.
    + intros Hn. destruct Hn. by right.
  - rewrite bool_decide_eq_false_2 by done.
    destruct (Table_nodeAt (table d0) q); [| done].
    destruct Hsq as [Hin Hout]. split.
    + intros [HD | ?]; [by apply Hin | done].
    + intros Hn. apply Hout. intros HD. apply Hn. by left.
Qed.

Lemma updateRowHeight_loop_spec (cols : list Z) :
  ∀ (tr : Transaction) (D : Z → Prop),
  tablePos (tr_doc tr) = tablePos d0 →
  heightsSet h D (table d0) (table (tr_doc tr)) →
  (∀ q, D q ∨ ¬ D q) →
  (∀ i, i ∈ cols →
        ∃ p, TableMap.at_ m (row * TableMap.width m + i) = Some p
             ∧ is_Some (Table_nodeAt (table d0) p)) →
  ∃ tr', updateRowHeight_loop (table d0) m (tableStart d0) row h tr cols = Some tr'
         ∧ tablePos (tr_doc tr') = tablePos d0
         ∧ heightsSet h
             (λ q, D q ∨ ∃ i, i ∈ cols ∧ TableMap.at_ m (row * TableMap.width m + i) = Some q)
             (table d0) (table (tr_doc tr'))
         ∧ length (tr_steps tr') = (length (tr_steps tr) + length cols)%nat.
Proof.
  induction cols as [| i cols IH]; intros tr D Hpos Hset Hdec Hcols; simpl.
  - eexists; split; [done |]. split; [done |]. split; [| lia].
    eapply heightsSet_iff; [| exact Hset].
    intros q; split; [by left |]. intros [? | (i & Hi & _)]; [done |].
    by apply elem_of_nil in Hi.
  - destruct (Hcols i) as (p & Hat & Hsome); [by left |].
    destruct (updateRowHeight_step_spec tr D i p Hpos Hset Hdec Hat Hsome)
      as (tr1 & -> & Hpos1 & Hset1 & Hsteps1).
    simpl. destruct (IH tr1 (λ q, D q ∨ q = p) Hpos1 Hset1) as (tr' & -> & Hpos' & Hset' & Hlen).
    + intros q. destruct (Hdec q) as [? | ?]; [by left; left |].
      destruct (decide (q = p)); [by left; right | right; intros [? | ?]; done].
    + intros j Hj. apply Hcols. by right.
    + eexists; split; [done |]. split; [done |]. split.
      * eapply heightsSet_iff; [| exact Hset'].
        intros q; split.
        -- intros [[? | ->] | (j & Hj & Hjq)].
           ++ by left.
           ++ right. exists i. split; [by left | done].
           ++ right. exists j. split; [by right | done].
        -- intros [? | (j & Hj & Hjq)]; [by left; left |].
           apply elem_of_cons in Hj as [-> | Hj].
           ++ left; right. congruence.
           ++ right. eauto.
      * rewrite Hlen, Hsteps1, length_app; simpl. lia.
Qed.

End Loop.

(** ** Where the code departs from the specification *)

Lemma updateRowHeight_loop_steps (table : Table) (m : TableMap.t) (start row : Z)
    (h : jsnum) (cols : list Z) :
  ∀ tr tr', updateRowHeight_loop table m start row h tr cols = Some tr' →
            length (tr_steps tr') = (length (tr_steps tr) + length cols)%nat.
Proof.
  induction cols as [| i cols IH]; intros tr tr' Hloop; simpl in *.
  - injection Hloop as <-. lia.
  - destruct (updateRowHeight_step table m start row h tr i) as [tr1 |] eqn:Hstep; [| done].
    simpl in Hloop. rewrite (IH _ _ Hloop).
    unfold updateRowHeight_step, setNodeMarkup in Hstep.
    destruct (TableMap.at_ m _) as [pos |]; [| done]. simpl in Hstep.
    destruct (Table_nodeAt table pos) as [c |]; [| done]. simpl in Hstep.
    destruct (Doc_setNodeMarkup _ _ _) as [d |]; [| done]. simpl in Hstep.
    injection Hstep as <-. simpl. rewrite length_app. simpl. lia.
Qed.

(** X8: Whenever [updateRowHeight] returns on a map with at least one column, it
    dispatches a transaction with one step per column, whatever the heights
    were before. *)
Lemma updateRowHeight_always_dispatches (view view' : EditorView) (cell : Z) (h : jsnum)
    (m : TableMap.t) :
  updateRowHeight view cell h = Some view' →
  TableMap.get (table (v_doc view)) = Some m →
  0 < TableMap.width m →
  ∃ tr, v_dispatched view' = tr :: v_dispatched view
        ∧ length (tr_steps tr) = Z.to_nat (TableMap.width m).
Proof.
  unfold updateRowHeight, Doc_resolve. intros Hupd Hmap Hw.
  destruct (Table_findCell _ _) as [[row c] |]; [| done]. simpl in Hupd.
  rewrite Hmap in Hupd. simpl in Hupd.
  destruct (TableMap.colCount _ _) as [col0 |]; [| done]. simpl in Hupd.
  destruct (updateRowHeight_loop _ _ _ _ _ _ _) as [tr |] eqn:Hloop; [| done].
  simpl in Hupd. apply updateRowHeight_loop_steps in Hloop.
  rewrite length_seqZ in Hloop. simpl in Hloop.
  unfold docChanged in Hupd. destruct (tr_steps tr) as [| st sts] eqn:Hsteps.
  - simpl in Hloop. lia.
  - injection Hupd as <-. exists tr. split; [done |]. rewrite Hsteps. exact Hloop.
Qed.

Lemma updateRowHeight_always_dispatches_witness :
  ∃ tr, v_dispatched
          (default ex_hover3 (updateRowHeight ex_hover3 2 (JNum 80))) = [tr]
        ∧ length (tr_steps tr) = 3%nat.
Proof.
  apply (updateRowHeight_always_dispatches ex_hover3 _ 2 (JNum 80)
           (TableMap.mk 3 3 [1; 5; 9; 15; 19; 23; 29; 33; 37]));
    [vm_compute; reflexivity | reflexivity | simpl; lia].
Defined.

(** C2 on the table whose first row is one cell two columns wide: the
    first call sets the height; the second call with the same height leaves
    the document as it is and is dispatched all the same, and its
    transaction replaces the attributes of the cell at position 2 twice,
    once per column. *)
Lemma updateRowHeight_twice :
  ∃ v1 v2 tr,
    updateRowHeight ex_hoverWide 2 (JNum 80) = Some v1
    ∧ updateRowHeight v1 2 (JNum 80) = Some v2
    ∧ v_doc v2 = v_doc v1
    ∧ v_dispatched v2 = tr :: v_dispatched v1
    ∧ tr_steps tr
      = [ReplaceAroundStep 2 (mkAttrs 2 1 None (JNum 80));
         ReplaceAroundStep 2 (mkAttrs 2 1 None (JNum 80))].
Proof.
  destruct (updateRowHeight ex_hoverWide 2 (JNum 80)) as [v1 |] eqn:H1;
    [| vm_compute in H1; discriminate].
  destruct (updateRowHeight v1 2 (JNum 80)) as [v2 |] eqn:H2;
    [| vm_compute in H1; injection H1 as <-; vm_compute in H2; discriminate].
  vm_compute in H1. injection H1 as <-.
  vm_compute in H2. injection H2 as <-.
  do 3 eexists. repeat split; reflexivity.
Qed.

(** C3 on the 2x2 table: a drag is in progress on the first cell of the
    second row when that row is deleted.  [apply] sets the handle to -1
    and keeps the session, a state in which the pointer-up listener
    [finish] fails on position -1 instead of ending the drag. *)
Lemma apply_lost_handle_strands_session :
  RowResizeState.apply (RowResizeState.mk 12 (Drag ex_session)) ex_deleteRow
  = RowResizeState.mk (-1) (Drag ex_session)
  ∧ finish (ex_view (tr_doc ex_deleteRow) (RowResizeState.mk (-1) (Drag ex_session)))
      (ex_event 130) 25
    = None.
Proof. split; vm_compute; reflexivity. Qed.

(** C4 on the 3x3 grid, whose cells have no height: the pointer-down at
    Y = 100 on the first cell captures [startHeight = undefined], not the
    minimum height 25, and the pointer-up at Y = 130 commits the height
    [NaN] to the three cells of row 0. *)
Lemma handleMouseDown_unset_height_commits_NaN :
  ∃ view1 view2,
    handleMouseDown ex_hover3 (ex_event 100) 25 = Some (true, view1)
    ∧ draggingRow <$> v_plugin view1
      = Some (Drag {| startY := 100; startHeight := JUndefined |})
    ∧ finish view1 (ex_event 130) 25 = Some view2
    ∧ v_doc view2 = {| tablePos := 0; table := ex_table3_row0_NaN |}.
Proof.
  destruct (handleMouseDown ex_hover3 (ex_event 100) 25) as [[handled view1] |] eqn:Hdown;
    [| vm_compute in Hdown; discriminate].
  destruct (finish view1 (ex_event 130) 25) as [view2 |] eqn:Hup;
    [| vm_compute in Hdown; injection Hdown as <- <-; vm_compute in Hup; discriminate].
  vm_compute in Hdown. injection Hdown as <- <-.
  vm_compute in Hup. injection Hup as <-.
  do 2 eexists. repeat split; reflexivity.
Qed.

(** C1 on the 2x2 table with [lastRowResizable = false]: the pointer near
    the right edge of the first cell of the final row activates the handle
    at that cell (position 12, row 1 of 2), and the pointer near the right
    edge of the last cell of row 0 does not activate anything. *)
Lemma handleMouseMove_lastRow_activated :
  v_plugin <$> handleMouseMove ex_view2 ex_moveLastRow 5 25 false
  = Some (Some (RowResizeState.mk 12 DragFalse))
  ∧ rp_index <$> Doc_resolve ex_doc2 12 = Some 1
  ∧ TableMap.height <$> TableMap.get (table ex_doc2) = Some 2
  ∧ handleMouseMove ex_view2 ex_moveLastCol 5 25 false = Some ex_view2.
Proof. repeat split; vm_compute; reflexivity. Qed.

(** ** Further properties: the DOM walk and the drag height *)

(** X1: [domCellAround] answers the nearest TD or TH on the way up from the
    target, the target included, provided no node before it is the editor
    root (class ProseMirror); in every other case it answers [null]. *)
Theorem domCellAround_spec (target : list DomElement) (e : DomElement)
    (rest : list DomElement) :
  domCellAround target = e :: rest ↔
  ∃ pre, target = pre ++ e :: rest
         ∧ isCellElement e
         ∧ Forall (λ x, ¬ isCellElement x ∧ classContains x "ProseMirror" = false) pre.
Proof.
  unfold isCellElement. split.
  - revert e rest. induction target as [| x parents IH]; intros e rest Hres; simpl in *; [done |].
    destruct (decide (nodeName x = "TD")) as [Htd | Htd].
    { rewrite bool_decide_eq_false_2 in Hres by (intros ?; done). simpl in Hres.
      injection Hres as <- <-. exists []. split; [done |]. split; [by left | constructor]. }
    destruct (decide (nodeName x = "TH")) as [Hth | Hth].
    { rewrite (bool_decide_eq_false_2 (nodeName x ≠ "TH")) in Hres by (intros ?; done).
      rewrite andb_false_r in Hres. injection Hres as <- <-.
      exists []. split; [done |]. split; [by right | constructor]. }
    rewrite !bool_decide_eq_true_2 in Hres by done. simpl in Hres.
    destruct (classContains x "ProseMirror") eqn:Hroot; [done |].
    destruct (IH _ _ Hres) as (pre & -> & Hcell & Hpre).
    exists (x :: pre). split; [done |]. split; [done |].
    constructor; [| done]. split; [intros [? | ?]; done | done].
  - intros (pre & -> & Hcell & Hpre).
    induction Hpre as [| x pre [Hx Hroot] _ IH]; simpl.
    + destruct Hcell as [Hn | Hn]; rewrite Hn; reflexivity.
    + rewrite !bool_decide_eq_true_2 by (intros ?; apply Hx; auto).
      simpl. by rewrite Hroot.
Qed.

(** A target outside any cell of the editor: the walk ends at the editor
    root, or at the top of the document, with [null]. *)
Example domCellAround_examples :
  domCellAround ex_chain = drop 1 ex_chain
  ∧ domCellAround (drop 2 ex_chain) = []
  ∧ domCellAround (drop 6 ex_chain) = [].
Proof. repeat split; vm_compute; reflexivity. Qed.

(** X2: The dragged height is never below the minimum height: it is a number
    that is at least [cellMinHeight], or [NaN], and it is [NaN] exactly
    when the start height of the session is no number ([undefined] or
    [NaN]). *)
Theorem draggedHeight_floor (d : DraggingRow) (event : MouseEvent) (cellMinHeight : Z) :
  match draggedHeight d event cellMinHeight with
  | JNum n => cellMinHeight ≤ n ∧ is_Some (toNumber (startHeight d))
  | JNaN => toNumber (startHeight d) = None
  | JNull | JUndefined => False
  end.
Proof.
  unfold draggedHeight, js_max, js_add.
  destruct (toNumber (startHeight d)) as [n |]; simpl; [| done].
  split; [lia | eauto].
Qed.

(** ** Further properties: the state machine *)

(** X3: A transaction without plugin action never touches the drag slot, and
    when it changed the document under an active handle, the handle it
    leaves is -1 or points at a cell of the new document. *)
Theorem apply_no_action_valid_handle (s : RowResizeState.t) (tr : Transaction) :
  tr_meta tr = None →
  draggingRow (RowResizeState.apply s tr) = draggingRow s
  ∧ (docChanged tr = true → activeHandle s > -1 →
     activeHandle (RowResizeState.apply s tr) = -1
     ∨ pointsAtCell (tr_doc tr) (activeHandle (RowResizeState.apply s tr)) = true).
Proof.
  intros Hmeta. unfold RowResizeState.apply. rewrite Hmeta; simpl. split.
  - by destruct (_ && _).
  - intros -> Hact. assert ((activeHandle s >? -1) = true) as -> by lia. simpl.
    destruct (pointsAtCell _ _) eqn:Hp; [by right | by left].
Qed.

Lemma apply_no_action_valid_handle_witness :
  draggingRow (RowResizeState.apply (RowResizeState.mk 2 (Drag ex_session)) ex_deleteRow)
  = Drag ex_session
  ∧ (activeHandle (RowResizeState.apply (RowResizeState.mk 2 (Drag ex_session)) ex_deleteRow)
     = -1
     ∨ pointsAtCell (tr_doc ex_deleteRow)
         (activeHandle (RowResizeState.apply (RowResizeState.mk 2 (Drag ex_session))
                          ex_deleteRow)) = true).
Proof.
  destruct (apply_no_action_valid_handle (RowResizeState.mk 2 (Drag ex_session)) ex_deleteRow)
    as [Hdrag Hhandle]; [reflexivity |].
  split; [exact Hdrag |]. apply Hhandle; [reflexivity | simpl; lia].
Defined.

(** ** Further properties: pointer moves *)

Lemma updateHandle_plugin (view : EditorView) (s : RowResizeState.t) (value : Z) :
  v_plugin view = Some s →
  v_plugin (updateHandle view value) = Some (RowResizeState.mk value DragFalse).
Proof. intros Hs. unfold updateHandle, dispatch. simpl. by rewrite Hs. Qed.

Lemma cellAround_resolve (d : Doc) (pos : Z) (rc : ResolvedPos) :
  cellAround d pos = Some rc → Doc_resolve d (rp_pos rc) = Some rc.
Proof.
  unfold cellAround. intros Hc.
  destruct (Table_cellAround _ _ _) as [p |]; [| done]. simpl in Hc.
  assert (rp_pos rc = tableStart d + p) as ->; [| done].
  unfold Doc_resolve in Hc. destruct (Table_findCell _ _); [| done].
  by injection Hc as <-.
Qed.

(** X4: The move, leave and down handlers never change the document, and a move
    dispatches at most the one transaction of [updateHandle]. *)
Theorem pointer_handlers_keep_doc :
  (∀ view event handleHeight cellMinHeight lastRowResizable view',
     handleMouseMove view event handleHeight cellMinHeight lastRowResizable = Some view' →
     v_doc view' = v_doc view ∧ (view' = view ∨ ∃ cell, view' = updateHandle view cell))
  ∧ (∀ view, v_doc (handleMouseLeave view) = v_doc view)
  ∧ (∀ view event cellMinHeight handled view',
       handleMouseDown view event cellMinHeight = Some (handled, view') →
       v_doc view' = v_doc view).
Proof.
  split; [| split].
  - intros view event hh cmh lrr view' Hmove. unfold handleMouseMove in Hmove.
    destruct (v_plugin view) as [s |]; [| injection Hmove as <-; auto].
    destruct (truthy (draggingRow s)); [injection Hmove as <-; auto |].
    destruct (match targetRect event with Some _ => _ | None => _ end) as [cell |];
      [| done].
    simpl in Hmove.
    destruct (cell =? activeHandle s); [injection Hmove as <-; auto |].
    destruct (if negb lrr && negb (cell =? -1) then _ else _) as [[|] |];
      simpl in Hmove; [| | done]; injection Hmove as <-; eauto.
  - intros view. unfold handleMouseLeave.
    destruct (v_plugin view) as [s |]; [| done]. by destruct (_ && _).
  - intros view event cmh handled view' Hdown. unfold handleMouseDown in Hdown.
    destruct (v_plugin view) as [s |]; [| by injection Hdown as <- <-].
    destruct (_ || _); [by injection Hdown as <- <- |].
    destruct (Doc_nodeAt _ _); [| done]. by injection Hdown as <- <-.
Qed.

Lemma pointer_handlers_keep_doc_witness :
  v_doc (default ex_view2 (handleMouseMove ex_view2 ex_moveLastRow 5 25 true)) = ex_doc2.
Proof.
  destruct (handleMouseMove ex_view2 ex_moveLastRow 5 25 true) as [view' |] eqn:Hmove;
    [| reflexivity].
  simpl. exact (proj1 (proj1 pointer_handlers_keep_doc _ _ _ _ _ _ Hmove)).
Defined.

(** X5: While no drag is in progress, a pointer that is farther than
    [handleHeight] from the left and from the right edge of its cell, or
    in no cell at all, resolves to no handle: an active handle is set to
    -1, and without one the view stays as it is.  The last-row option
    plays no part. *)
Theorem handleMouseMove_away_from_edges (view : EditorView) (s : RowResizeState.t)
    (event : MouseEvent) (handleHeight cellMinHeight : Z) (lastRowResizable : bool) :
  v_plugin view = Some s →
  truthy (draggingRow s) = false →
  (∀ l r, targetRect event = Some (l, r) →
          handleHeight < clientX event - l ∧ handleHeight < r - clientX event) →
  ∃ view',
    handleMouseMove view event handleHeight cellMinHeight lastRowResizable = Some view'
    ∧ activeHandle <$> v_plugin view' = Some (-1)
    ∧ (activeHandle s = -1 → view' = view)
    ∧ (activeHandle s ≠ -1 → v_plugin view' = Some (RowResizeState.mk (-1) DragFalse)).
Proof.
  intros Hs Hdrag Hfar. unfold handleMouseMove. rewrite Hs, Hdrag.
  assert (match targetRect event with
          | Some (l, r) =>
              if clientX event - l <=? handleHeight
              then edgeCell view event SideLeft handleHeight
              else if r - clientX event <=? handleHeight
                   then edgeCell view event SideRight handleHeight
                   else Some (-1)
          | None => Some (-1)
          end = Some (-1)) as ->.
  { destruct (targetRect event) as [[l r] |]; [| done].
    destruct (Hfar l r eq_refl) as [Hl Hr].
    assert ((clientX event - l <=? handleHeight) = false) as -> by lia.
    by assert ((r - clientX event <=? handleHeight) = false) as -> by lia. }
  cbn -[Z.eqb]. rewrite Z.eqb_refl, andb_false_r. cbn -[Z.eqb].
  destruct (Z.eqb_spec (-1) (activeHandle s)) as [Heq | Hne].
  - eexists; split; [done |]. rewrite Hs. simpl. split; [by rewrite <- Heq |].
    split; [done | lia].
  - eexists; split; [done |]. rewrite (updateHandle_plugin _ _ _ Hs).
    split; [done |]. split; [lia | done].
Qed.

Lemma handleMouseMove_away_from_edges_witness :
  ∃ view',
    handleMouseMove (ex_view ex_doc2 (RowResizeState.mk 12 DragFalse)) ex_moveInside 5 25 false
    = Some view'
    ∧ activeHandle <$> v_plugin view' = Some (-1)
    ∧ (12 = -1 → view' = ex_view ex_doc2 (RowResizeState.mk 12 DragFalse))
    ∧ (12 ≠ -1 → v_plugin view' = Some (RowResizeState.mk (-1) DragFalse)).
Proof.
  apply (handleMouseMove_away_from_edges (ex_view ex_doc2 (RowResizeState.mk 12 DragFalse))
           (RowResizeState.mk 12 DragFalse) ex_moveInside 5 25 false);
    [reflexivity | reflexivity |].
  intros l r [= <- <-]. simpl. lia.
Defined.

Section RightEdge.

Variables (view : EditorView) (s : RowResizeState.t) (event : MouseEvent).
Variables (handleHeight cellMinHeight l r pos : Z) (rcell : ResolvedPos).

Hypothesis Hplugin : v_plugin view = Some s.
Hypothesis Hnodrag : truthy (draggingRow s) = false.
Hypothesis Hrect : targetRect event = Some (l, r).
Hypothesis Hleft : handleHeight < clientX event - l.
Hypothesis Hright : r - clientX event ≤ handleHeight.
Hypothesis Hhit : v_posAtCoords view (clientX event + - handleHeight) (clientY event) = Some pos.
Hypothesis Hcell : cellAround (v_doc view) pos = Some rcell.
Hypothesis Hnew : rp_pos rcell ≠ activeHandle s.

Lemma handleMouseMove_right_edge_cell :
  match targetRect event with
  | Some (l, r) =>
      if clientX event - l <=? handleHeight
      then edgeCell view event SideLeft handleHeight
      else if r - clientX event <=? handleHeight
           then edgeCell view event SideRight handleHeight
           else Some (-1)
  | None => Some (-1)
  end = Some (rp_pos rcell).
Proof.
  rewrite Hrect.
  assert ((clientX event - l <=? handleHeight) = false) as -> by lia.
  assert ((r - clientX event <=? handleHeight) = true) as -> by lia.
  unfold edgeCell. by rewrite Hhit, Hcell.
Qed.

(** X6: With [lastRowResizable = true] and no drag in progress, a pointer
    within [handleHeight] of the right edge of a cell (and farther from
    its left edge) makes the position of the cell hit [handleHeight]
    pixels to the left the active handle, with no drag. *)
Theorem handleMouseMove_right_edge :
  handleMouseMove view event handleHeight cellMinHeight true
  = Some (updateHandle view (rp_pos rcell))
  ∧ v_plugin (updateHandle view (rp_pos rcell))
    = Some (RowResizeState.mk (rp_pos rcell) DragFalse)
  ∧ Doc_nodeAt (v_doc view) (rp_pos rcell) = Some (rp_nodeAfter rcell).
Proof.
  unfold handleMouseMove. rewrite Hplugin, Hnodrag, handleMouseMove_right_edge_cell.
  simpl. assert ((rp_pos rcell =? activeHandle s) = false) as -> by lia.
  split; [done |]. split; [exact (updateHandle_plugin _ _ _ Hplugin) |].
  pose proof (cellAround_resolve _ _ _ Hcell) as Hres.
  unfold Doc_resolve in Hres. unfold Doc_nodeAt, Table_nodeAt.
  destruct (Table_findCell _ _) as [[i c] |]; [| done].
  by injection Hres as <-.
Qed.

(** X7: With [lastRowResizable = false], the same pointer is refused exactly
    when the cell ends in the last column of the map: the view, and with
    it the previous handle, stays as it is; in every other column the cell
    becomes the active handle, whatever its row. *)
Theorem handleMouseMove_last_column (m : TableMap.t) (col0 : Z) :
  TableMap.get (rp_table rcell) = Some m →
  TableMap.colCount m (rp_pos rcell - rp_start rcell) = Some col0 →
  rp_pos rcell ≠ -1 →
  handleMouseMove view event handleHeight cellMinHeight false
  = Some (if col0 + colspan (attrs (rp_nodeAfter rcell)) - 1 =? TableMap.width m - 1
          then view else updateHandle view (rp_pos rcell)).
Proof.
  intros Hmap Hcol Hpos.
  unfold handleMouseMove. rewrite Hplugin, Hnodrag, handleMouseMove_right_edge_cell.
  simpl. assert ((rp_pos rcell =? activeHandle s) = false) as -> by lia.
  assert ((rp_pos rcell =? -1) = false) as -> by lia. simpl.
  rewrite (cellAround_resolve _ _ _ Hcell). simpl.
  rewrite Hmap. simpl. rewrite Hcol. simpl.
  by destruct (_ =? _).
Qed.

End RightEdge.

Lemma handleMouseMove_right_edge_witness :
  handleMouseMove ex_view2 ex_moveLastRow 5 25 true = Some (updateHandle ex_view2 12)
  ∧ v_plugin (updateHandle ex_view2 12) = Some (RowResizeState.mk 12 DragFalse)
  ∧ Doc_nodeAt ex_doc2 12 = Some ex_cell.
Proof.
  apply (handleMouseMove_right_edge ex_view2 RowResizeState.init ex_moveLastRow 5 25 0 100 14
           (mkResolved 12 (table ex_doc2) 1 1 ex_cell));
    try reflexivity; simpl; lia.
Defined.

Lemma handleMouseMove_last_column_witness :
  handleMouseMove ex_view2 ex_moveLastCol 5 25 false = Some ex_view2.
Proof.
  apply (handleMouseMove_last_column ex_view2 RowResizeState.init ex_moveLastCol 5 25 100 200 8
           (mkResolved 6 (table ex_doc2) 1 0 ex_cell)
           eq_refl eq_refl eq_refl ltac:(simpl; lia) ltac:(simpl; lia) eq_refl eq_refl
           ltac:(simpl; lia) (TableMap.mk 2 2 [1; 5; 11; 15]) 1);
    [reflexivity | reflexivity | simpl; lia].
Defined.

(** ** Tables of the same shape *)

Lemma sameShape_nodeSize (c c' : Cell) : sameShape c c' → nodeSize c = nodeSize c'.
Proof. intros (_ & _ & Hsz). unfold nodeSize. by rewrite Hsz. Qed.

Lemma sameShapes_refl (t : Table) : sameShapes t t.
Proof.
  apply Forall2_same_length_lookup_2; [done |]. intros i r r' Hr Hr'.
  assert (r = r') as <- by congruence.
  apply Forall2_same_length_lookup_2; [done |]. intros j c c' Hc Hc'.
  assert (c = c') as <- by congruence. done.
Qed.

Lemma sumZ_Forall2 {A B} (R : A → B → Prop) (f : A → Z) (g : B → Z) (l : list A)
    (l' : list B) :
  (∀ x y, R x y → f x = g y) → Forall2 R l l' → sumZ f l = sumZ g l'.
Proof.
  intros Hfg Hl. induction Hl as [| x y l l' Hxy _ IH]; simpl; [done |].
  by rewrite (Hfg _ _ Hxy), IH.
Qed.

Lemma rowSize_shape (r r' : Row) : Forall2 sameShape r r' → rowSize r = rowSize r'.
Proof.
  intros Hr. unfold rowSize.
  by rewrite (sumZ_Forall2 sameShape nodeSize nodeSize r r' sameShape_nodeSize Hr).
Qed.

Lemma Row_nodeAt_shape (r r' : Row) :
  Forall2 sameShape r r' →
  ∀ q, option_Forall2 sameShape (Row_nodeAt r q) (Row_nodeAt r' q).
Proof.
  intros Hr. induction Hr as [| c c' r r' Hc _ IH]; intros q; simpl; [constructor |].
  rewrite <- (sameShape_nodeSize _ _ Hc).
  destruct (q =? 0); [by constructor |].
  destruct (q <? nodeSize c); [constructor | apply IH].
Qed.

Lemma Table_findCell_shape (t t' : Table) :
  sameShapes t t' →
  ∀ q, option_Forall2 (λ x y, fst x = fst y ∧ sameShape (snd x) (snd y))
         (Table_findCell t q) (Table_findCell t' q).
Proof.
  intros Ht. induction Ht as [| r r' t t' Hr _ IH]; intros q; simpl; [constructor |].
  rewrite <- (rowSize_shape _ _ Hr).
  destruct (q <? rowSize r).
  - destruct (Row_nodeAt_shape _ _ Hr (q - 1)) as [c c' Hc |]; simpl; by constructor.
  - destruct (IH (q - rowSize r)) as [[i c] [i' c'] [Hi Hc] |]; simpl in *;
      constructor. simpl. split; [by rewrite Hi | done].
Qed.

Lemma pointsAtCell_shape (d d' : Doc) (pos : Z) :
  tablePos d' = tablePos d → sameShapes (table d) (table d') →
  pointsAtCell d' pos = pointsAtCell d pos.
Proof.
  intros Hpos Ht. unfold pointsAtCell, Doc_resolve, tableStart. rewrite Hpos.
  apply bool_decide_ext. rewrite !fmap_is_Some.
  destruct (Table_findCell_shape _ _ Ht (pos - (tablePos d + 1))) as [x y _ |].
  - split; eauto.
  - split; by intros [? ?].
Qed.

Lemma Row_setAttrs_shape (a : CellAttrs) (r0 r : Row) :
  Forall2 sameShape r0 r →
  ∀ p c r', Row_nodeAt r0 p = Some c →
            colspan a = colspan (attrs c) → rowspan a = rowspan (attrs c) →
            Row_setAttrs r p a = Some r' →
            Forall2 sameShape r0 r'.
Proof.
  intros Hr. induction Hr as [| c0 c1 r0 r Hc Hr IH]; intros p c r' Hat Hcol Hrow Hset;
    simpl in *; [done |].
  rewrite <- (sameShape_nodeSize _ _ Hc) in Hset.
  destruct (p =? 0).
  - injection Hat as ->. injection Hset as <-. constructor; [| done].
    destruct Hc as (? & ? & ?). repeat split; simpl; congruence.
  - destruct (p <? nodeSize c0); [done |].
    destruct (Row_setAttrs r (p - nodeSize c0) a) as [r'' |] eqn:Hr''; [| done].
    injection Hset as <-. constructor; [done |]. by eapply IH.
Qed.

Lemma Table_setAttrs_shape (a : CellAttrs) (t0 t : Table) :
  sameShapes t0 t →
  ∀ p c t', Table_nodeAt t0 p = Some c →
            colspan a = colspan (attrs c) → rowspan a = rowspan (attrs c) →
            Table_setAttrs t p a = Some t' →
            sameShapes t0 t'.
Proof.
  unfold Table_nodeAt.
  intros Ht. induction Ht as [| r0 r t0 t Hr Ht IH]; intros p c t' Hat Hcol Hrow Hset;
    simpl in *; [done |].
  rewrite <- (rowSize_shape _ _ Hr) in Hset.
  destruct (p <? rowSize r0).
  - destruct (Row_nodeAt r0 (p - 1)) as [c' |] eqn:Hc'; [| done].
    injection Hat as ->.
    destruct (Row_setAttrs r (p - 1) a) as [r'' |] eqn:Hr''; [| done].
    injection Hset as <-. constructor; [| done]. by eapply Row_setAttrs_shape.
  - destruct (Table_findCell t0 (p - rowSize r0)) as [[i c'] |] eqn:Hc'; [| done].
    injection Hat as ->.
    destruct (Table_setAttrs t (p - rowSize r0) a) as [t'' |] eqn:Ht''; [| done].
    injection Hset as <-. constructor; [done |].
    eapply (IH (p - rowSize r0) c); [by rewrite Hc' | done | done | done].
Qed.

(** The loop of [updateRowHeight] keeps the shape of the table, the meta
    value and the mapping of its transaction. *)
Lemma updateRowHeight_loop_shape (d0 : Doc) (m : TableMap.t) (row : Z) (h : jsnum)
    (cols : list Z) :
  ∀ tr tr',
    tablePos (tr_doc tr) = tablePos d0 →
    sameShapes (table d0) (table (tr_doc tr)) →
    updateRowHeight_loop (table d0) m (tableStart d0) row h tr cols = Some tr' →
    tablePos (tr_doc tr') = tablePos d0
    ∧ sameShapes (table d0) (table (tr_doc tr'))
    ∧ tr_meta tr' = tr_meta tr
    ∧ tr_mapping tr' = tr_mapping tr.
Proof.
  induction cols as [| i cols IH]; intros tr tr' Hpos Hshape Hloop; simpl in *.
  - by injection Hloop as <-.
  - destruct (updateRowHeight_step _ _ _ _ _ _ _) as [tr1 |] eqn:Hstep; [| done].
    simpl in Hloop.
    unfold updateRowHeight_step in Hstep.
    destruct (TableMap.at_ m _) as [p |]; [| done]. simpl in Hstep.
    destruct (Table_nodeAt (table d0) p) as [c |] eqn:Hc; [| done]. simpl in Hstep.
    unfold setNodeMarkup, Doc_setNodeMarkup, tableStart in Hstep. rewrite Hpos in Hstep.
    replace (tablePos d0 + 1 + p - (tablePos d0 + 1)) with p in Hstep by lia.
    destruct (Table_setAttrs _ p _) as [t1 |] eqn:Hset; [| done]. simpl in Hstep.
    injection Hstep as <-.
    apply IH in Hloop; simpl in *; [exact Hloop | done |].
    exact (Table_setAttrs_shape (withHeight (attrs c) h) _ _ Hshape p c _ Hc
             eq_refl eq_refl Hset).
Qed.

(** The grid map only depends on the shape of the table. *)

Lemma imap_Forall2_ext {A B C} (P : A → B → Prop) (l : list A) (l' : list B) :
  Forall2 P l l' →
  ∀ (f : nat → A → C) (g : nat → B → C),
    (∀ i x y, P x y → f i x = g i y) → imap f l = imap g l'.
Proof.
  intros Hl. induction Hl as [| x y l l' Hxy _ IH]; intros f g Hfg; simpl; [done |].
  rewrite (Hfg _ _ _ Hxy). f_equal. apply IH. intros i x' y' Hxy'. by apply Hfg.
Qed.

Lemma imap_pair_Forall2 {A B} (P : A → B → Prop) (l : list A) (l' : list B) :
  Forall2 P l l' →
  ∀ g : nat → nat,
    Forall2 (λ x y, fst x = fst y ∧ P (snd x) (snd y))
      (imap (λ i x, (g i, x)) l) (imap (λ i y, (g i, y)) l').
Proof.
  intros Hl. induction Hl as [| x y l l' Hxy _ IH]; intros g; simpl; constructor.
  - done.
  - apply (IH (g ∘ S)).
Qed.

Lemma TableMap_hanging_shape (t t' : Table) (row : nat) :
  sameShapes t t' → TableMap.hanging t row = TableMap.hanging t' row.
Proof.
  intros Ht. unfold TableMap.hanging.
  apply (sumZ_Forall2 (λ x y : nat * Row, fst x = fst y ∧ Forall2 sameShape (snd x) (snd y))).
  - intros [j r] [j' r'] [Hj Hr]; simpl in *. subst j'.
    apply (sumZ_Forall2 sameShape); [| done].
    intros c c' (Hcol & Hrow & _). by rewrite Hcol, Hrow.
  - apply (imap_pair_Forall2 _ _ _ (Forall2_take _ _ _ row Ht) id).
Qed.

Lemma TableMap_findWidth_shape (t t' : Table) :
  sameShapes t t' → TableMap.findWidth t = TableMap.findWidth t'.
Proof.
  intros Ht. unfold TableMap.findWidth. f_equal.
  apply (imap_Forall2_ext (Forall2 sameShape)); [done |].
  intros i r r' Hr. unfold TableMap.rowWidth.
  rewrite (TableMap_hanging_shape _ _ i Ht). f_equal.
  apply (sumZ_Forall2 sameShape); [| done]. by intros c c' (Hcol & _).
Qed.

Lemma TableMap_placeCells_shape (w h row : Z) (r r' : Row) :
  Forall2 sameShape r r' →
  ∀ st, TableMap.placeCells w h row r st = TableMap.placeCells w h row r' st.
Proof.
  intros Hr. induction Hr as [| c c' r r' Hc _ IH]; intros [[m mapPos] pos]; simpl; [done |].
  pose proof (sameShape_nodeSize _ _ Hc) as Hsz. destruct Hc as (Hcol & Hrow & _).
  unfold TableMap.slotsOf. rewrite Hcol, Hrow, Hsz.
  destruct (h <? row + rowspan (attrs c')); [done |].
  destruct (TableMap.fill _ _ _); simpl; [apply IH | done].
Qed.

Lemma TableMap_placeRows_shape (w h : Z) (t t' : Table) :
  sameShapes t t' →
  ∀ row st, TableMap.placeRows w h row t st = TableMap.placeRows w h row t' st.
Proof.
  intros Ht. induction Ht as [| r r' t t' Hr _ IH]; intros row [[m mapPos] pos]; simpl;
    [done |].
  rewrite (TableMap_placeCells_shape w h row r r' Hr).
  destruct (TableMap.placeCells _ _ _ _ _) as [[[m' mapPos'] pos'] |]; simpl; [| done].
  destruct (_ <? _); [done | apply IH].
Qed.

Lemma TableMap_get_shape (t t' : Table) :
  sameShapes t t' → TableMap.get t = TableMap.get t'.
Proof.
  intros Ht. unfold TableMap.get.
  rewrite (TableMap_findWidth_shape _ _ Ht), (Forall2_length _ _ _ Ht).
  by rewrite (TableMap_placeRows_shape _ _ _ _ Ht).
Qed.

(** ** Further properties: the commit of a row height *)

Lemma Table_findCell_nonpos (t : Table) (p : Z) : p ≤ 0 → Table_findCell t p = None.
Proof.
  intros Hp. destruct t as [| r t]; simpl; [done |].
  assert (0 ≤ sumZ nodeSize r) as Hsum.
  { induction r as [| c r IH]; simpl; [done |]. unfold nodeSize at 1. lia. }
  assert ((p <? rowSize r) = true) as -> by (unfold rowSize; lia).
  destruct r as [| c r]; simpl; [done |].
  assert ((p - 1 =? 0) = false) as -> by lia.
  assert ((p - 1 <? nodeSize c) = true) as ->; [| done].
  apply Z.ltb_lt. unfold nodeSize. lia.
Qed.

Lemma Doc_resolve_pointsAtCell (d : Doc) (pos : Z) (rcell : ResolvedPos) :
  Doc_resolve d pos = Some rcell → pointsAtCell d pos = true.
Proof. intros Hres. unfold pointsAtCell. rewrite Hres. apply bool_decide_eq_true_2. eauto. Qed.

Lemma Row_setAttrs_same (r : Row) :
  ∀ p c, Row_nodeAt r p = Some c → Row_setAttrs r p (attrs c) = Some r.
Proof.
  induction r as [| c0 r IH]; intros p c Hat; simpl in *; [done |].
  destruct (p =? 0); [injection Hat as ->; by destruct c |].
  destruct (p <? nodeSize c0); [done |]. by rewrite (IH _ _ Hat).
Qed.

Lemma Table_setAttrs_same (t : Table) :
  ∀ p c, Table_nodeAt t p = Some c → Table_setAttrs t p (attrs c) = Some t.
Proof.
  unfold Table_nodeAt.
  induction t as [| r t IH]; intros p c Hat; simpl in *; [done |].
  destruct (p <? rowSize r).
  - destruct (Row_nodeAt r (p - 1)) as [c' |] eqn:Hc'; [| done]. injection Hat as ->.
    by rewrite (Row_setAttrs_same _ _ _ Hc').
  - destruct (Table_findCell t (p - rowSize r)) as [[i c'] |] eqn:Hc'; [| done].
    injection Hat as ->. rewrite (IH (p - rowSize r) c); [done |]. by rewrite Hc'.
Qed.

Lemma withHeight_same (a : CellAttrs) : withHeight a (height a) = a.
Proof. by destruct a. Qed.

Lemma updateRowHeight_loop_noop (d0 : Doc) (m : TableMap.t) (row : Z) (h : jsnum)
    (cols : list Z) :
  ∀ tr,
    tr_doc tr = d0 →
    (∀ i, i ∈ cols →
          ∃ p c, TableMap.at_ m (row * TableMap.width m + i) = Some p
                 ∧ Table_nodeAt (table d0) p = Some c
                 ∧ height (attrs c) = h) →
    ∃ tr', updateRowHeight_loop (table d0) m (tableStart d0) row h tr cols = Some tr'
           ∧ tr_doc tr' = d0.
Proof.
  induction cols as [| i cols IH]; intros tr Hdoc Hcols; simpl; [eauto |].
  destruct (Hcols i) as (p & c & Hat & Hc & Hh); [by left |].
  unfold updateRowHeight_step. rewrite Hat. simpl. rewrite Hc. simpl.
  unfold setNodeMarkup, Doc_setNodeMarkup. rewrite Hdoc.
  replace (tableStart d0 + p - tableStart d0) with p by lia.
  assert (withHeight (attrs c) h = attrs c) as -> by (rewrite <- Hh; apply withHeight_same).
  rewrite (Table_setAttrs_same _ _ _ Hc). simpl.
  apply IH; [by destruct d0 |]. intros j Hj. apply Hcols. by right.
Qed.

Section Commit.

Variables (view : EditorView) (cell : Z) (h : jsnum) (rcell : ResolvedPos) (m : TableMap.t).

Hypothesis Hres : Doc_resolve (v_doc view) cell = Some rcell.
Hypothesis Hmap : TableMap.get (table (v_doc view)) = Some m.
Hypothesis Hcol : is_Some (TableMap.colCount m (cell - tableStart (v_doc view))).

Lemma updateRowHeight_unfold :
  updateRowHeight view cell h
  = tr ← updateRowHeight_loop (table (v_doc view)) m (tableStart (v_doc view))
           (rp_index rcell) h (state_tr view) (seqZ 0 (TableMap.width m));
    Some (if docChanged tr then dispatch view tr else view).
Proof.
  unfold updateRowHeight. rewrite Hres. simpl.
  unfold Doc_resolve in Hres. destruct (Table_findCell _ _) as [[row c] |]; [| done].
  injection Hres as <-. simpl. rewrite Hmap. simpl.
  destruct Hcol as [col0 ->]. done.
Qed.

Lemma updateRowHeight_noop_aux :
  (∀ i, 0 ≤ i < TableMap.width m →
        ∃ p c, TableMap.at_ m (rp_index rcell * TableMap.width m + i) = Some p
               ∧ Table_nodeAt (table (v_doc view)) p = Some c
               ∧ height (attrs c) = h) →
  ∃ view', updateRowHeight view cell h = Some view' ∧ v_doc view' = v_doc view.
Proof.
  intros Hslots. rewrite updateRowHeight_unfold.
  destruct (updateRowHeight_loop_noop (v_doc view) m (rp_index rcell) h
              (seqZ 0 (TableMap.width m)) (state_tr view)) as (tr' & -> & Hdoc); [done | |].
  { intros i Hi. apply Hslots. apply elem_of_seqZ in Hi. lia. }
  simpl. eexists; split; [done |]. by destruct (docChanged tr').
Qed.

Hypothesis Hslots :
  ∀ i, 0 ≤ i < TableMap.width m →
       ∃ p, TableMap.at_ m (rp_index rcell * TableMap.width m + i) = Some p
            ∧ is_Some (Table_nodeAt (table (v_doc view)) p).

Lemma updateRowHeight_commit :
  ∃ view',
    updateRowHeight view cell h = Some view'
    ∧ tablePos (v_doc view') = tablePos (v_doc view)
    ∧ heightsSet h (inRow m (rp_index rcell)) (table (v_doc view)) (table (v_doc view'))
    ∧ sameShapes (table (v_doc view)) (table (v_doc view'))
    ∧ (∀ s, v_plugin view = Some s →
            (activeHandle s > -1 → pointsAtCell (v_doc view) (activeHandle s) = true) →
            v_plugin view' = Some s).
Proof.
  rewrite updateRowHeight_unfold.
  destruct (updateRowHeight_loop_spec (v_doc view) m (rp_index rcell) h
              (seqZ 0 (TableMap.width m)) (state_tr view) (λ _, False))
    as (tr' & Hloop & Hpos & Hset & Hlen).
  { done. }
  { apply heightsSet_refl. }
  { intros _. right. tauto. }
  { intros i Hi. apply Hslots. apply elem_of_seqZ in Hi. lia. }
  rewrite Hloop. simpl.
  destruct (updateRowHeight_loop_shape (v_doc view) m (rp_index rcell) h _ (state_tr view) tr'
              eq_refl (sameShapes_refl _) Hloop) as (_ & Hshape & Hmeta & Hmapping).
  simpl in *.
  assert (heightsSet h (inRow m (rp_index rcell)) (table (v_doc view)) (table (tr_doc tr')))
    as Hrow.
  { eapply heightsSet_iff; [| exact Hset]. intros q; unfold inRow; split.
    - intros [[] | (i & Hi & Hq)]. exists i. apply elem_of_seqZ in Hi. split; [lia | done].
    - intros (i & Hi & Hq). right. exists i. split; [apply elem_of_seqZ; lia | done]. }
  unfold docChanged. destruct (tr_steps tr') as [| st sts] eqn:Hsteps.
  - destruct (seqZ 0 (TableMap.width m)) as [| i cols] eqn:Hcols; [| simpl in Hlen; lia].
    simpl in Hloop. injection Hloop as <-. simpl in *.
    eexists; split; [done |]. split; [done |]. split; [done |].
    split; [apply sameShapes_refl | by intros s Hs _].
  - eexists; split; [done |]. simpl. split; [done |]. split; [done |]. split; [done |].
    intros s Hs Hvalid. rewrite Hs. simpl. f_equal.
    unfold RowResizeState.apply. rewrite Hmeta, Hmapping. simpl.
    unfold docChanged. rewrite Hsteps. rewrite andb_true_r.
    destruct (Z.gtb_spec (activeHandle s) (-1)) as [Hgt | Hle]; [| done].
    rewrite (pointsAtCell_shape (v_doc view) (tr_doc tr') _ Hpos Hshape).
    rewrite Hvalid by lia. by destruct s.
Qed.

End Commit.

(** What [heightsSet] says, written out attribute by attribute. *)
Lemma heightsSet_rowHeightSet (h : jsnum) (D : Z → Prop) (t t' : Table) :
  heightsSet h D t t' → rowHeightSet h D t t'.
Proof.
  intros Hset q. specialize (Hset q).
  destruct (Table_nodeAt t q) as [c |]; [| done].
  destruct Hset as [Hin Hout]. split; [| done].
  intros HD. exists (Cell_withHeight h c). split; [by apply Hin |].
  unfold heightSetTo. by simpl.
Qed.




Ltac ex_row_slots :=
  let i := fresh "i" in
  let Hi := fresh "Hi" in
  intros i Hi; simpl in Hi;
  assert (i = 0 ∨ i = 1 ∨ i = 2) as [-> | [-> | ->]] by lia;
  repeat (eexists; try split; try reflexivity).

(** X9: The commit of a row height leaves the interaction state alone: when
    the active handle is -1 or points at a cell, the plugin state after
    [updateRowHeight] is the one before, and the table keeps its shape and
    its grid map, so that the handle stays valid. *)
Theorem updateRowHeight_keeps_state (view : EditorView) (cell : Z) (h : jsnum)
    (rcell : ResolvedPos) (m : TableMap.t) (s : RowResizeState.t) :
  Doc_resolve (v_doc view) cell = Some rcell →
  TableMap.get (table (v_doc view)) = Some m →
  is_Some (TableMap.colCount m (cell - tableStart (v_doc view))) →
  (∀ i, 0 ≤ i < TableMap.width m →
        ∃ p, TableMap.at_ m (rp_index rcell * TableMap.width m + i) = Some p
             ∧ is_Some (Table_nodeAt (table (v_doc view)) p)) →
  v_plugin view = Some s →
  (activeHandle s > -1 → pointsAtCell (v_doc view) (activeHandle s) = true) →
  ∃ view',
    updateRowHeight view cell h = Some view'
    ∧ v_plugin view' = Some s
    ∧ sameShapes (table (v_doc view)) (table (v_doc view'))
    ∧ TableMap.get (table (v_doc view')) = Some m
    ∧ (activeHandle s > -1 → pointsAtCell (v_doc view') (activeHandle s) = true).
Proof.
  intros Hres Hmap Hcol Hslots Hs Hvalid.
  destruct (updateRowHeight_commit view cell h rcell m Hres Hmap Hcol Hslots)
    as (view' & Hupd & Hpos & _ & Hshape & Hplugin).
  exists view'. split; [done |]. split; [by apply Hplugin |]. split; [done |].
  split; [by rewrite <- (TableMap_get_shape _ _ Hshape) |].
  intros Hact. rewrite (pointsAtCell_shape _ _ _ Hpos Hshape). by apply Hvalid.
Qed.

Lemma updateRowHeight_keeps_state_witness :
  ∃ view',
    updateRowHeight ex_dragging3 2 (JNum 80) = Some view'
    ∧ v_plugin view' = Some (RowResizeState.mk 2 (Drag ex_session))
    ∧ sameShapes ex_table3 (table (v_doc view'))
    ∧ TableMap.get (table (v_doc view'))
      = Some (TableMap.mk 3 3 [1; 5; 9; 15; 19; 23; 29; 33; 37])
    ∧ (2 > -1 → pointsAtCell (v_doc view') 2 = true).
Proof.
  apply (updateRowHeight_keeps_state ex_dragging3 2 (JNum 80)
           (mkResolved 2 ex_table3 1 0 ex_cell)
           (TableMap.mk 3 3 [1; 5; 9; 15; 19; 23; 29; 33; 37])
           (RowResizeState.mk 2 (Drag ex_session)));
    [reflexivity | reflexivity | eexists; reflexivity | ex_row_slots | reflexivity
    | intros _; reflexivity].
Defined.

(** X10: When every cell in the slots of the row already has height [h],
    [updateRowHeight] returns and the document is the one before. *)
Theorem updateRowHeight_same_height_keeps_doc (view : EditorView) (cell : Z) (h : jsnum)
    (rcell : ResolvedPos) (m : TableMap.t) :
  Doc_resolve (v_doc view) cell = Some rcell →
  TableMap.get (table (v_doc view)) = Some m →
  is_Some (TableMap.colCount m (cell - tableStart (v_doc view))) →
  (∀ i, 0 ≤ i < TableMap.width m →
        ∃ p c, TableMap.at_ m (rp_index rcell * TableMap.width m + i) = Some p
               ∧ Table_nodeAt (table (v_doc view)) p = Some c
               ∧ height (attrs c) = h) →
  ∃ view', updateRowHeight view cell h = Some view' ∧ v_doc view' = v_doc view.
Proof. intros Hres Hmap Hcol Hslots. by eapply updateRowHeight_noop_aux. Qed.

Lemma updateRowHeight_same_height_keeps_doc_witness :
  ∃ view',
    updateRowHeight ex_hover3_resized 2 (JNum 80) = Some view'
    ∧ v_doc view' = {| tablePos := 0; table := ex_table3_resized |}.
Proof.
  apply (updateRowHeight_same_height_keeps_doc ex_hover3_resized 2 (JNum 80)
           (mkResolved 2 ex_table3_resized 1 0 (Cell_withHeight (JNum 80) ex_cell))
           (TableMap.mk 3 3 [1; 5; 9; 15; 19; 23; 29; 33; 37]));
    [reflexivity | reflexivity | eexists; reflexivity | ex_row_slots].
Defined.

(** X11: [updateRowHeight] is idempotent on the document: called a second time
    with the same handle and height, it returns and leaves the document of
    the first call as it is. *)
Theorem updateRowHeight_idempotent (view : EditorView) (cell : Z) (h : jsnum)
    (rcell : ResolvedPos) (m : TableMap.t) :
  Doc_resolve (v_doc view) cell = Some rcell →
  TableMap.get (table (v_doc view)) = Some m →
  is_Some (TableMap.colCount m (cell - tableStart (v_doc view))) →
  (∀ i, 0 ≤ i < TableMap.width m →
        ∃ p, TableMap.at_ m (rp_index rcell * TableMap.width m + i) = Some p
             ∧ is_Some (Table_nodeAt (table (v_doc view)) p)) →
  ∃ view1 view2,
    updateRowHeight view cell h = Some view1
    ∧ updateRowHeight view1 cell h = Some view2
    ∧ v_doc view2 = v_doc view1.
Proof.
  intros Hres Hmap Hcol Hslots.
  destruct (updateRowHeight_commit view cell h rcell m Hres Hmap Hcol Hslots)
    as (view1 & Hupd & Hpos & Hset & Hshape & _).
  exists view1.
  assert (tableStart (v_doc view1) = tableStart (v_doc view)) as Hstart
    by (unfold tableStart; by rewrite Hpos).
  assert (∃ rcell1, Doc_resolve (v_doc view1) cell = Some rcell1
                    ∧ rp_index rcell1 = rp_index rcell) as (rcell1 & Hres1 & Hidx).
  { unfold Doc_resolve in *. rewrite Hstart.
    destruct (Table_findCell_shape _ _ Hshape (cell - tableStart (v_doc view)))
      as [[i c] [i' c'] [Hi _] |]; [| done].
    simpl in *. injection Hres as <-. eexists; split; [done |]. by simpl. }
  destruct (updateRowHeight_noop_aux view1 cell h rcell1 m) as (view2 & Hupd2 & Hdoc2).
  - done.
  - by rewrite <- (TableMap_get_shape _ _ Hshape).
  - by rewrite Hstart.
  - intros i Hi. rewrite Hidx. destruct (Hslots i Hi) as (p & Hat & [c Hc]).
    exists p, (Cell_withHeight h c). split; [done |]. split; [| done].
    pose proof (Hset p) as Hp. rewrite Hc in Hp. apply Hp. by exists i.
  - by exists view2.
Qed.

Lemma updateRowHeight_idempotent_witness :
  ∃ view1 view2,
    updateRowHeight ex_hoverWide 2 (JNum 80) = Some view1
    ∧ updateRowHeight view1 2 (JNum 80) = Some view2
    ∧ v_doc view2 = v_doc view1.
Proof.
  apply (updateRowHeight_idempotent ex_hoverWide 2 (JNum 80)
           (mkResolved 2 (table ex_docWide) 1 0
              {| attrs := mkAttrs 2 1 None JUndefined; contentSize := 2 |})
           (TableMap.mk 2 2 [1; 1; 7; 11]));
    [reflexivity | reflexivity | eexists; reflexivity |].
  intros i Hi. simpl in Hi.
  assert (i = 0 ∨ i = 1) as [-> | ->] by lia;
    (exists 1; split; [reflexivity | eexists; reflexivity]).
Defined.

(** ** Further properties: a whole drag *)

(** X12: A drag from pointer-down to pointer-up: in the hover state on a handle
    that points at a cell of a well-formed row, [handleMouseDown] followed
    by [finish] commits the dragged height, the maximum of the minimum
    height and the height the cell had at pointer-down plus the way the
    pointer went ([NaN] when that height is [undefined] or [NaN], and with
    0 for [null]): every cell in
    a slot of the row in which the handle's cell starts has that height,
    with its spans, column widths and content size as before, every other
    cell is as it was, and the state ends with the same handle and
    [draggingRow = null]. *)
Theorem drag_commits_row_height (view : EditorView) (s : RowResizeState.t)
    (down up : MouseEvent) (cellMinHeight : Z) (rcell : ResolvedPos) (m : TableMap.t) :
  v_plugin view = Some s →
  truthy (draggingRow s) = false →
  activeHandle s > -1 →
  Doc_resolve (v_doc view) (activeHandle s) = Some rcell →
  TableMap.get (table (v_doc view)) = Some m →
  is_Some (TableMap.colCount m (activeHandle s - tableStart (v_doc view))) →
  (∀ i, 0 ≤ i < TableMap.width m →
        ∃ p, TableMap.at_ m (rp_index rcell * TableMap.width m + i) = Some p
             ∧ is_Some (Table_nodeAt (table (v_doc view)) p)) →
  ∃ view1 view2,
    handleMouseDown view down cellMinHeight = Some (true, view1)
    ∧ finish view1 up cellMinHeight = Some view2
    ∧ rowHeightSet
        (match height (attrs (rp_nodeAfter rcell)) with
         | JNum n => JNum (Z.max cellMinHeight (n + (clientY up - clientY down)))
         | JNull => JNum (Z.max cellMinHeight (0 + (clientY up - clientY down)))
         | JNaN | JUndefined => JNaN
         end)
        (inRow m (rp_index rcell)) (table (v_doc view)) (table (v_doc view2))
    ∧ v_plugin view2 = Some (RowResizeState.mk (activeHandle s) DragNull).
Proof.
  intros Hs Hdrag Hact Hres Hmap Hcol Hslots.
  assert (Doc_nodeAt (v_doc view) (activeHandle s) = Some (rp_nodeAfter rcell)) as Hnode.
  { unfold Doc_resolve in Hres. unfold Doc_nodeAt, Table_nodeAt.
    destruct (Table_findCell _ _) as [[i c] |]; [| done]. by injection Hres as <-. }
  set (d := {| startY := clientY down;
               startHeight := height (attrs (rp_nodeAfter rcell)) |}).
  set (view1 := dispatch view
                  (setMeta (state_tr view)
                     {| setHandle := None; setDraggingRow := Some (Drag d) |})).
  assert (v_plugin view1 = Some (RowResizeState.mk (activeHandle s) (Drag d))) as Hs1.
  { unfold view1, dispatch. simpl. by rewrite Hs. }
  destruct (updateRowHeight_commit view1 (activeHandle s) (draggedHeight d up cellMinHeight)
              rcell m Hres Hmap Hcol Hslots) as (view1' & Hupd & _ & Hset & _ & Hplugin).
  specialize (Hplugin _ Hs1 (λ _, Doc_resolve_pointsAtCell _ _ _ Hres)).
  exists view1, (dispatch view1'
                   (setMeta (state_tr view1')
                      {| setHandle := None; setDraggingRow := Some DragNull |})).
  split.
  { unfold handleMouseDown. rewrite Hs, Hdrag, Hnode.
    by assert ((activeHandle s =? -1) = false) as -> by lia. }
  split.
  { unfold finish. rewrite Hs1. simpl. by rewrite Hupd. }
  split; [| simpl; by rewrite Hplugin].
  apply heightsSet_rowHeightSet in Hset.
  unfold draggedHeight, js_max, js_add, d in Hset. simpl in Hset.
  by destruct (height (attrs (rp_nodeAfter rcell))).
Qed.

Lemma drag_commits_row_height_witness :
  ∃ view1 view2,
    handleMouseDown ex_hover3_resized (ex_event 100) 25 = Some (true, view1)
    ∧ finish view1 (ex_event 130) 25 = Some view2
    ∧ rowHeightSet (JNum 110)
        (inRow (TableMap.mk 3 3 [1; 5; 9; 15; 19; 23; 29; 33; 37]) 0)
        ex_table3_resized (table (v_doc view2))
    ∧ v_plugin view2 = Some (RowResizeState.mk 2 DragNull).
Proof.
  apply (drag_commits_row_height ex_hover3_resized (RowResizeState.mk 2 DragFalse)
           (ex_event 100) (ex_event 130) 25
           (mkResolved 2 ex_table3_resized 1 0 (Cell_withHeight (JNum 80) ex_cell))
           (TableMap.mk 3 3 [1; 5; 9; 15; 19; 23; 29; 33; 37]));
    [reflexivity | reflexivity | simpl; lia | reflexivity | reflexivity
    | eexists; reflexivity | ex_row_slots].
Defined.

(** X13: A drag whose handle was lost to an edit ([activeHandle = -1] with a
    session still in the state) cannot be finished: [finish] fails on
    resolving position -1, and so does [move], with or without a button
    held, so nothing is dispatched and the session is never cleared; and
    mouse-leave, pointer-down and pointer-move leave the state as it is. *)
Theorem finish_lost_handle_fails (view : EditorView) (d : DraggingRow) (event : MouseEvent)
    (cellMinHeight : Z) :
  v_plugin view = Some (RowResizeState.mk (-1) (Drag d)) →
  0 ≤ tablePos (v_doc view) →
  finish view event cellMinHeight = None
  ∧ (∀ dom, move view dom event cellMinHeight = None)
  ∧ handleMouseLeave view = view
  ∧ handleMouseDown view event cellMinHeight = Some (false, view)
  ∧ ∀ handleHeight lastRowResizable,
      handleMouseMove view event handleHeight cellMinHeight lastRowResizable = Some view.
Proof.
  intros Hs Hpos.
  assert (Doc_resolve (v_doc view) (-1) = None) as Hres.
  { unfold Doc_resolve, tableStart. by rewrite Table_findCell_nonpos by lia. }
  assert (finish view event cellMinHeight = None) as Hfin.
  { unfold finish, updateRowHeight. rewrite Hs. simpl. by rewrite Hres. }
  split; [done |]. split.
  - intros dom. unfold move. rewrite Hfin, Hs. simpl.
    unfold displayRowHeight. rewrite Hres. by destruct (which event =? 0).
  - unfold handleMouseLeave, handleMouseDown, handleMouseMove. by rewrite Hs.
Qed.

Lemma finish_lost_handle_fails_witness :
  finish ex_lostHandle ex_release 25 = None
  ∧ (∀ dom, move ex_lostHandle dom ex_release 25 = None)
  ∧ handleMouseLeave ex_lostHandle = ex_lostHandle
  ∧ handleMouseDown ex_lostHandle ex_release 25 = Some (false, ex_lostHandle)
  ∧ ∀ handleHeight lastRowResizable,
      handleMouseMove ex_lostHandle ex_release handleHeight 25 lastRowResizable
      = Some ex_lostHandle.
Proof.
  apply (finish_lost_handle_fails ex_lostHandle ex_session ex_release 25);
    [reflexivity | simpl; lia].
Defined.

(** ** Further properties: painting the rows *)

Lemma removeSiblings_all (nextDOM : list nat) :
  ∀ children, (∀ x, x ∈ children → x ∈ nextDOM) → removeSiblings nextDOM children = [].
Proof.
  induction nextDOM as [| n after IH]; intros children Hsub; simpl.
  - apply elem_of_nil_inv. intros x Hx. by apply Hsub, elem_of_nil in Hx.
  - apply IH. intros x Hx. apply list_elem_of_filter in Hx as [Hne Hx].
    apply Hsub, elem_of_cons in Hx as [? | ?]; done.
Qed.

Lemma assignPx_idem (old : css) (v : jsnum) : assignPx (assignPx old v) v = assignPx old v.
Proof. destruct v as [n | | |]; simpl; [| done | done | done]. by destruct (0 <=? n). Qed.

Lemma setRowStyleHeight_spec (table table' : DomTable) (i : Z) (h : jsnum) :
  setRowStyleHeight table i h = Some table' →
  row_childNodes <$> dom_rows table' = row_childNodes <$> dom_rows table
  ∧ dom_style_height table' = dom_style_height table
  ∧ dom_style_minHeight table' = dom_style_minHeight table
  ∧ setRowStyleHeight table' i h = Some table'.
Proof.
  unfold setRowStyleHeight, rows_at. intros Hset.
  destruct (i <? 0) eqn:Hi; [done |].
  destruct (dom_rows table !! Z.to_nat i) as [r |] eqn:Hr; [| done].
  simpl in Hset. injection Hset as <-. simpl.
  split; [| split; [done | split; [done |]]].
  - rewrite list_fmap_insert. simpl. apply list_insert_id.
    by rewrite list_lookup_fmap, Hr.
  - rewrite list_lookup_insert_eq by (by eapply lookup_lt_Some). simpl.
    by rewrite list_insert_insert_eq, assignPx_idem.
Qed.

(** What the [for] loop leaves alone, and when it does nothing. *)
Lemma updateRowsOnResize_loop_frame (overrideRow : option Z) (overrideValue : jsnum)
    (cells : Row) :
  ∀ table table',
    updateRowsOnResize_loop cells 0 overrideRow overrideValue table = Some table' →
    row_childNodes <$> dom_rows table' = row_childNodes <$> dom_rows table
    ∧ dom_style_height table' = dom_style_height table
    ∧ dom_style_minHeight table' = dom_style_minHeight table.
Proof.
  induction cells as [| c cells IH]; intros table table' Hloop; simpl in Hloop.
  - by injection Hloop as <-.
  - destruct (_ && _); [by apply IH |].
    destruct (negb _); [| by apply IH].
    destruct (setRowStyleHeight table 0 overrideValue) as [table1 |] eqn:Hset;
      [| done].
    simpl in Hloop. apply IH in Hloop as (-> & -> & ->).
    by apply setRowStyleHeight_spec in Hset as (-> & -> & -> & _).
Qed.

Lemma updateRowsOnResize_loop_skip (r : Z) (overrideValue : jsnum) (cells : Row)
    (table : DomTable) :
  r ≠ 0 →
  updateRowsOnResize_loop cells 0 (Some r) overrideValue table = Some table.
Proof.
  intros Hr. induction cells as [| c cells IH]; simpl; [done |].
  rewrite bool_decide_eq_true_2 by congruence. exact IH.
Qed.

Lemma updateRowsOnResize_loop_paint (overrideRow : option Z) (overrideValue : jsnum)
    (c : Cell) (cells : Row) (table : DomTable) :
  overrideRow = None ∨ overrideRow = Some 0 →
  isUndefined overrideValue = false →
  updateRowsOnResize_loop (c :: cells) 0 overrideRow overrideValue table
  = setRowStyleHeight table 0 overrideValue.
Proof.
  intros Hrow Hval.
  assert (bool_decide (overrideRow ≠ None) && bool_decide (overrideRow ≠ Some 0) = false)
    as Hskip.
  { destruct Hrow as [-> | ->].
    - by rewrite bool_decide_eq_false_2 by (intros ?; done).
    - rewrite (bool_decide_eq_false_2 (Some 0 ≠ Some 0)) by (intros ?; done).
      apply andb_false_r. }
  simpl. rewrite Hskip, Hval. simpl.
  destruct (setRowStyleHeight table 0 overrideValue) as [table1 |] eqn:Hset;
    [| done].
  simpl. apply setRowStyleHeight_spec in Hset as (_ & _ & _ & Hidem).
  clear c. induction cells as [| c cells IH]; simpl; [done |].
  rewrite Hskip, Hval. simpl. by rewrite Hidem.
Qed.

(** X14: Whenever [updateRowsOnResize] returns on a grid node with a row, the
    DOM row at index [overrideRow ?? 0] has lost all its child nodes, the
    child nodes of every other row are as before, and the table has
    [style.height = 0px] and an empty [style.minHeight]. *)
Theorem updateRowsOnResize_removes_cells (rowNode : Row) (rest : Table) (table table' : DomTable)
    (cellMinHeight : Z) (overrideRow : option Z) (overrideValue : jsnum) :
  updateRowsOnResize (rowNode :: rest) table cellMinHeight overrideRow overrideValue
  = Some table' →
  row_childNodes <$> dom_rows table'
  = (if default 0 overrideRow <? 0 then row_childNodes <$> dom_rows table
     else <[Z.to_nat (default 0 overrideRow) := []]> (row_childNodes <$> dom_rows table))
  ∧ dom_style_height table' = CssPx (JNum 0)
  ∧ dom_style_minHeight table' = CssEmpty.
Proof.
  unfold updateRowsOnResize. intros Hupd.
  destruct (updateRowsOnResize_loop rowNode 0 overrideRow overrideValue table)
    as [table1 |] eqn:Hloop; [| done].
  simpl in Hupd. injection Hupd as <-. simpl. split; [| done].
  apply updateRowsOnResize_loop_frame in Hloop as (Hch & _ & _).
  unfold rows_at. destruct (default 0 overrideRow <? 0); [done |].
  set (k := Z.to_nat (default 0 overrideRow)).
  assert (row_childNodes <$> dom_rows table1 !! k = row_childNodes <$> dom_rows table !! k)
    as Hk by (by rewrite <- !list_lookup_fmap, Hch).
  destruct (dom_rows table1 !! k) as [r1 |] eqn:Hr1.
  - rewrite list_fmap_insert, Hch. simpl. f_equal.
    destruct (dom_rows table !! k) as [r0 |]; [| done].
    simpl in *. injection Hk as ->. by apply removeSiblings_all.
  - rewrite Hch. symmetry. apply list_insert_ge.
    rewrite <- Hch, length_fmap. by apply lookup_ge_None.
Qed.

Lemma updateRowsOnResize_removes_cells_witness :
  row_childNodes <$> dom_rows
    (default ex_dom3 (updateRowsOnResize ex_table3 ex_dom3 25 (Some 1) (JNum 80)))
  = [[0; 1; 2]; []; [6; 7; 8]]%nat.
Proof.
  destruct (updateRowsOnResize ex_table3 ex_dom3 25 (Some 1) (JNum 80)) as [table' |] eqn:Hupd;
    [| vm_compute in Hupd; discriminate].
  simpl.
  exact (proj1 (updateRowsOnResize_removes_cells _ _ _ _ _ _ _ Hupd)).
Defined.

(** X15: A row height is never painted on any row but the first: with
    [overrideRow] other than 0, [updateRowsOnResize] returns and every DOM
    row keeps its [style.height]. *)
Theorem updateRowsOnResize_other_rows_unpainted (node : Table) (table : DomTable)
    (cellMinHeight r : Z) (overrideValue : jsnum) :
  r ≠ 0 →
  ∃ table',
    updateRowsOnResize node table cellMinHeight (Some r) overrideValue = Some table'
    ∧ row_style_height <$> dom_rows table' = row_style_height <$> dom_rows table.
Proof.
  intros Hr. unfold updateRowsOnResize. destruct node as [| rowNode rest]; [eauto |].
  rewrite updateRowsOnResize_loop_skip by done. simpl.
  eexists; split; [done |]. simpl.
  destruct (rows_at table r) as [row |] eqn:Hrow; [| done].
  unfold rows_at in Hrow. destruct (r <? 0); [done |].
  rewrite list_fmap_insert. simpl. apply list_insert_id.
  by rewrite list_lookup_fmap, Hrow.
Qed.

Lemma updateRowsOnResize_other_rows_unpainted_witness :
  ∃ table',
    updateRowsOnResize ex_table3 ex_dom3 25 (Some 1) (JNum 80) = Some table'
    ∧ row_style_height <$> dom_rows table' = [CssEmpty; CssEmpty; CssEmpty].
Proof.
  apply (updateRowsOnResize_other_rows_unpainted ex_table3 ex_dom3 25 1 (JNum 80)). lia.
Defined.

(** X16: With [overrideRow] 0 or left out, an [overrideValue] that is given and
    a first grid row that has a cell, [updateRowsOnResize] fails when the
    DOM table has no row.  Otherwise the first DOM row loses its child
    nodes, the other rows stay as they are and the table gets
    [style.height] 0px and an empty [style.minHeight]; the first row's
    [style.height] becomes [overrideValue] in pixels when that is a number
    that is not negative, and stays what it was for a negative number,
    [NaN] and [null]. *)
Theorem updateRowsOnResize_first_row (c : Cell) (cells : Row) (rest : Table)
    (table : DomTable) (cellMinHeight : Z) (overrideRow : option Z) (overrideValue : jsnum) :
  overrideRow = None ∨ overrideRow = Some 0 →
  isUndefined overrideValue = false →
  match rows_at table 0 with
  | None =>
      updateRowsOnResize ((c :: cells) :: rest) table cellMinHeight overrideRow overrideValue
      = None
  | Some r0 =>
      ∃ h0,
        updateRowsOnResize ((c :: cells) :: rest) table cellMinHeight overrideRow overrideValue
        = Some {| dom_rows := <[0%nat := mkDomRow h0 []]> (dom_rows table);
                  dom_style_height := CssPx (JNum 0);
                  dom_style_minHeight := CssEmpty |}
        ∧ (∀ n, overrideValue = JNum n → 0 ≤ n → h0 = CssPx (JNum n))
        ∧ (∀ n, overrideValue = JNum n → n < 0 → h0 = row_style_height r0)
        ∧ (overrideValue = JNaN ∨ overrideValue = JNull → h0 = row_style_height r0)
  end.
Proof.
  intros Hrow Hval. unfold updateRowsOnResize.
  rewrite (updateRowsOnResize_loop_paint _ _ _ _ _ Hrow Hval).
  assert (default 0 overrideRow = 0) as -> by (by destruct Hrow as [-> | ->]).
  unfold setRowStyleHeight.
  destruct (rows_at table 0) as [r0 |] eqn:Hr0; [| done].
  exists (assignPx (row_style_height r0) overrideValue).
  simpl. unfold rows_at in *. simpl in *.
  rewrite list_lookup_insert_eq by (by eapply lookup_lt_Some).
  simpl. rewrite list_insert_insert_eq. rewrite removeSiblings_all by done.
  split; [done |]. split; [| split].
  - intros n -> Hn. simpl. by assert ((0 <=? n) = true) as -> by lia.
  - intros n -> Hn. simpl. by assert ((0 <=? n) = false) as -> by lia.
  - by intros [-> | ->].
Qed.

Lemma updateRowsOnResize_first_row_witness :
  ∃ h0,
    updateRowsOnResize ex_table3 ex_dom3_painted 25 (Some 0) JNaN
    = Some {| dom_rows := <[0%nat := mkDomRow h0 []]> (dom_rows ex_dom3_painted);
              dom_style_height := CssPx (JNum 0);
              dom_style_minHeight := CssEmpty |}
    ∧ (∀ n, JNaN = JNum n → 0 ≤ n → h0 = CssPx (JNum n))
    ∧ (∀ n, JNaN = JNum n → n < 0 → h0 = CssPx (JNum 40))
    ∧ (JNaN = JNaN ∨ JNaN = JNull → h0 = CssPx (JNum 40)).
Proof.
  apply (updateRowsOnResize_first_row ex_cell [ex_cell; ex_cell] _ ex_dom3_painted 25 (Some 0)
           JNaN); [by right | reflexivity].
Defined.

(** The first row painted at 80, and left at 40 by a height that is no
    valid length. *)
Example updateRowsOnResize_first_row_examples :
  row_style_height <$> dom_rows
    (default ex_dom3 (updateRowsOnResize ex_table3 ex_dom3_painted 25 (Some 0) (JNum 80)))
  = [CssPx (JNum 80); CssEmpty; CssEmpty]
  ∧ row_style_height <$> dom_rows
      (default ex_dom3 (updateRowsOnResize ex_table3 ex_dom3_painted 25 (Some 0) JNaN))
    = [CssPx (JNum 40); CssEmpty; CssEmpty]
  ∧ row_style_height <$> dom_rows
      (default ex_dom3 (updateRowsOnResize ex_table3 ex_dom3_painted 25 None (JNum (-5))))
    = [CssPx (JNum 40); CssEmpty; CssEmpty].
Proof. repeat split; vm_compute; reflexivity. Qed.

(** X17: The live preview of a drag is not painted for a handle outside the
    first row: [displayRowHeight] returns, and every DOM row keeps its
    [style.height]. *)
Theorem displayRowHeight_other_rows (view : EditorView) (dom : DomTable) (cell : Z)
    (height : jsnum) (cellMinHeight : Z) (rcell : ResolvedPos) :
  Doc_resolve (v_doc view) cell = Some rcell →
  rp_index rcell ≠ 0 →
  ∃ dom',
    displayRowHeight view (Some dom) cell height cellMinHeight = Some (Some dom')
    ∧ row_style_height <$> dom_rows dom' = row_style_height <$> dom_rows dom.
Proof.
  intros Hres Hrow. unfold displayRowHeight. rewrite Hres. simpl.
  unfold updateRowsOnResize. destruct (rp_table rcell) as [| rowNode rest]; [eauto |].
  rewrite updateRowsOnResize_loop_skip by done. simpl.
  eexists; split; [done |]. simpl.
  destruct (rows_at dom (rp_index rcell)) as [row |] eqn:Hr; [| done].
  unfold rows_at in Hr. destruct (rp_index rcell <? 0); [done |].
  rewrite list_fmap_insert. simpl. apply list_insert_id.
  by rewrite list_lookup_fmap, Hr.
Qed.

Lemma displayRowHeight_other_rows_witness :
  ∃ dom',
    displayRowHeight ex_hover3 (Some ex_dom3) 16 (JNum 80) 25 = Some (Some dom')
    ∧ row_style_height <$> dom_rows dom' = [CssEmpty; CssEmpty; CssEmpty].
Proof.
  apply (displayRowHeight_other_rows ex_hover3 ex_dom3 16 (JNum 80) 25
           (mkResolved 16 ex_table3 1 1 ex_cell)); [reflexivity | simpl; lia].
Defined.

(** ** Further properties: the handle widgets and the plugin props *)

Lemma handleDecorations_loop_spec (table : Table) (m : TableMap.t) (start col : Z)
    (rows : list Z) :
  ∀ ds,
    handleDecorations_loop table m start col rows = Some ds →
    Forall2
      (λ row d, ∃ p c,
         TableMap.at_ m ((row + 1) * TableMap.width m - 1) = Some p
         ∧ Table_nodeAt table p = Some c
         ∧ d = start + p + nodeSize c - 1)
      (filter
         (λ row,
            (col = TableMap.width m
             ∨ TableMap.at_ m ((row + 1) * TableMap.width m - 1)
               ≠ TableMap.at_ m ((row + 1) * TableMap.width m - 1 + 1))
            ∧ (row = 0
               ∨ TableMap.at_ m ((row + 1) * TableMap.width m - 1)
                 ≠ TableMap.at_ m ((row + 1) * TableMap.width m - 1 - TableMap.width m)))
         rows)
      ds.
Proof.
  induction rows as [| row rows IH]; intros ds Hloop; simpl in Hloop.
  - injection Hloop as <-. constructor.
  - destruct (handleDecorations_row table m start col row) as [d0 |] eqn:Hrow; [| done].
    simpl in Hloop.
    destruct (handleDecorations_loop table m start col rows) as [ds' |]; [| done].
    simpl in Hloop. injection Hloop as <-. specialize (IH ds' eq_refl).
    unfold handleDecorations_row in Hrow.
    destruct (_ && _) eqn:Hcond.
    + apply andb_true_iff in Hcond as [Hright Habove].
      apply orb_true_iff in Hright, Habove.
      rewrite Z.eqb_eq, bool_decide_eq_true in Hright, Habove.
      rewrite filter_cons_True by done.
      destruct (TableMap.at_ m ((row + 1) * TableMap.width m - 1)) as [p |] eqn:Hp; [| done].
      simpl in Hrow. destruct (Table_nodeAt table p) as [c |] eqn:Hc; [| done].
      simpl in Hrow. injection Hrow as <-. constructor; [| done].
      exists p, c. by rewrite Hp.
    + injection Hrow as <-. rewrite filter_cons_False; [done |].
      intros [Hright Habove].
      apply andb_false_iff in Hcond as [Hcond | Hcond];
        apply orb_false_iff in Hcond as [Heq Hne];
        apply Z.eqb_neq in Heq; apply bool_decide_eq_false in Hne; tauto.
Qed.

(** X18: The widgets of [handleDecorations], in order: one for each row of the
    map, from the top, in which the handle's cell ends in the last column
    or the slot of the last column differs from the slot after it, and
    which is row 0 or has in its last column another cell than the row
    above; none for any other row.  The widget of a row is at the last
    position inside the cell that occupies the last column of the row.  At
    a position directly in front of or behind the table, which resolves to
    depth 0, the set is empty. *)
Theorem handleDecorations_widgets :
  (∀ (state : EditorView) (cell : Z) (ds : list Z) (rcell : ResolvedPos) (m : TableMap.t)
     (col0 : Z),
     Doc_resolve (v_doc state) cell = Some rcell →
     TableMap.get (table (v_doc state)) = Some m →
     TableMap.colCount m (cell - tableStart (v_doc state)) = Some col0 →
     handleDecorations state cell = Some ds →
     Forall2
       (λ row d, ∃ p c,
          TableMap.at_ m ((row + 1) * TableMap.width m - 1) = Some p
          ∧ Table_nodeAt (table (v_doc state)) p = Some c
          ∧ d = tableStart (v_doc state) + p + nodeSize c - 1)
       (filter
          (λ row,
             (col0 + colspan (attrs (rp_nodeAfter rcell)) = TableMap.width m
              ∨ TableMap.at_ m ((row + 1) * TableMap.width m - 1)
                ≠ TableMap.at_ m ((row + 1) * TableMap.width m - 1 + 1))
             ∧ (row = 0
                ∨ TableMap.at_ m ((row + 1) * TableMap.width m - 1)
                  ≠ TableMap.at_ m ((row + 1) * TableMap.width m - 1 - TableMap.width m)))
          (seqZ 0 (TableMap.height m)))
       ds)
  ∧ (∀ (state : EditorView) (cell : Z),
       cell = tablePos (v_doc state)
       ∨ cell = tablePos (v_doc state) + tableContentSize (table (v_doc state)) + 2 →
       Doc_resolve (v_doc state) cell = None →
       handleDecorations state cell = Some []).
Proof.
  split.
  - intros state cell ds rcell m col0 Hres Hmap Hcol Hdec.
    unfold handleDecorations in Hdec. rewrite Hres in Hdec.
    unfold Doc_resolve in Hres.
    destruct (Table_findCell _ _) as [[row0 c0] |]; [| done].
    injection Hres as <-. simpl in *.
    rewrite Hmap in Hdec. simpl in Hdec. rewrite Hcol in Hdec. simpl in Hdec.
    by apply handleDecorations_loop_spec in Hdec.
  - intros state cell Hcell Hres. unfold handleDecorations, atTopLevel. rewrite Hres.
    destruct Hcell as [-> | ->].
    + by rewrite Z.eqb_refl.
    + rewrite Z.eqb_refl. by rewrite orb_true_r.
Qed.

Lemma handleDecorations_widgets_witness :
  Forall2
    (λ row d, ∃ p c,
       TableMap.at_ (TableMap.mk 2 2 [1; 5; 11; 5]) ((row + 1) * 2 - 1) = Some p
       ∧ Table_nodeAt (table ex_docTallLast) p = Some c
       ∧ d = 1 + p + nodeSize c - 1)
    [0] [9]
  ∧ handleDecorations (ex_view ex_docTallLast RowResizeState.init) 0 = Some [].
Proof.
  split.
  - apply (proj1 handleDecorations_widgets
             (ex_view ex_docTallLast (RowResizeState.mk 6 DragFalse)) 6 [9]
             (mkResolved 6 (table ex_docTallLast) 1 0
                {| attrs := mkAttrs 1 2 None JUndefined; contentSize := 2 |})
             (TableMap.mk 2 2 [1; 5; 11; 5]) 1);
      reflexivity.
  - apply (proj2 handleDecorations_widgets (ex_view ex_docTallLast RowResizeState.init) 0);
      [by left | reflexivity].
Defined.

(** A cell of the last column that spans two rows gets one widget, and
    the 3x3 grid one for each row. *)
Example handleDecorations_examples :
  handleDecorations (ex_view ex_docTallLast (RowResizeState.mk 6 DragFalse)) 6 = Some [9]
  ∧ handleDecorations ex_hover3 2 = Some [13; 27; 41].
Proof. split; vm_compute; reflexivity. Qed.

(** X19: The resize cursor class is set exactly in the states in which the
    handle widgets are computed, and after a mouse-leave with no drag in
    progress neither is there. *)
Theorem props_follow_handle :
  (∀ state, attributes state = [] ↔ decorations state = None)
  ∧ (∀ view s,
       v_plugin view = Some s →
       truthy (draggingRow s) = false →
       attributes (handleMouseLeave view) = []
       ∧ decorations (handleMouseLeave view) = None).
Proof.
  split.
  - intros state. unfold attributes, decorations.
    destruct (v_plugin state) as [s |]; [| done].
    by destruct (activeHandle s >? -1).
  - intros view s Hs Hdrag. unfold handleMouseLeave. rewrite Hs, Hdrag. simpl.
    rewrite andb_true_r.
    destruct (activeHandle s >? -1) eqn:Hact.
    + unfold attributes, decorations. by rewrite (updateHandle_plugin _ _ _ Hs).
    + unfold attributes, decorations. by rewrite Hs, Hact.
Qed.

Lemma props_follow_handle_witness :
  attributes (handleMouseLeave ex_hover3) = []
  ∧ decorations (handleMouseLeave ex_hover3) = None.
Proof.
  apply (proj2 props_follow_handle ex_hover3 (RowResizeState.mk 2 DragFalse));
    reflexivity.
Defined.
